(** * Trieste: model stacking and acquisition-function builders

    A shallow embedding of [trieste/models/model_interfaces.py] and
    [trieste/acquisition/interface.py], and proofs about the routing of
    datasets and predictions through [ModelStack], the dimension checks
    that [update] makes in the wrappers of GPflow and GPflux models, and
    the tag adapters produced by [using]. *)

From stdpp Require Import gmap strings list list_numbers fin_maps pretty.
From Stdlib Require Import ZArith Lia.

Set Default Proof Using "Type".
Open Scope Z_scope.
Open Scope nat_scope.

(** ** Python exceptions and effects *)

(** The exceptions the embedded code can raise.  A [ValueError] raised
    without arguments carries no message; [OtherError] stands for whatever
    a user-supplied model or builder raises. *)
Inductive exn : Type :=
  | KeyError (key : string)
  | IndexError
  | ValueError (msg : option string)
  | InvalidArgumentError
  | OtherError (code : nat).

Inductive result (X : Type) : Type :=
  | Ok (x : X)
  | Raise (e : exn).
Arguments Ok {X} x.
Arguments Raise {X} e.

(** A Python call: it reads and writes the program state [St] and either
    returns or raises.  The state at the point of the raise is kept. *)
Definition M (St X : Type) : Type := St -> result X * St.

Definition ret {St X} (x : X) : M St X := fun s => (Ok x, s).

Definition raise {St X} (e : exn) : M St X := fun s => (Raise e, s).

Definition bind {St X Y} (c : M St X) (k : X -> M St Y) : M St Y :=
  fun s =>
    match c s with
    | (Ok x, s') => k x s'
    | (Raise e, s') => (Raise e, s')
    end.

Declare Scope py_scope.
Delimit Scope py_scope with py.
Notation "x <- c ;; k" := (bind c (fun x => k))
  (at level 100, c at next level, right associativity) : py_scope.
Notation "c ;;; k" := (bind c (fun _ => k))
  (at level 100, right associativity) : py_scope.
Open Scope py_scope.

(** [[f(x) for x in xs]]: the calls are made left to right and the first
    raise abandons the rest. *)
Fixpoint list_comprehension {St X Y} (f : X -> M St Y) (xs : list X)
  : M St (list Y) :=
  match xs with
  | [] => ret []
  | x :: xs' =>
      y <- f x ;;
      ys <- list_comprehension f xs' ;;
      ret (y :: ys)
  end.

(** [for x in xs: f(x)] *)
Fixpoint for_each {St X} (f : X -> M St unit) (xs : list X) : M St unit :=
  match xs with
  | [] => ret tt
  | x :: xs' => f x ;;; for_each f xs'
  end.

(** [mapping[key]] on a [dict]. *)
Definition getitem {St V} (mapping : gmap string V) (key : string) : M St V :=
  match mapping !! key with
  | Some v => ret v
  | None => raise (KeyError key)
  end.

(** The abstract carriers of the development: tensor entries (floats in
    the source), the program state user-supplied objects live in, the
    models handed to builders, and acquisition functions. *)
Class Domain : Type := {
  Scalar : Type;
  World : Type;
  ProbabilisticModel : Type;
  AcquisitionFunction : Type
}.

(** ** Tensors *)

Section tensors.
Context `{Domain}.

(** A dense tensor: its static shape and its entries in row-major
    order. *)
Record TensorType : Type := Tensor {
  shape : list nat;
  entries : list Scalar
}.

Definition num_elements (dims : list nat) : nat := foldr Nat.mul 1 dims.

(** The entries agree with the shape. *)
Definition well_formed (t : TensorType) : Prop :=
  length (entries t) = num_elements (shape t).

(** Python indexing of an axis: [axis] counts from the end when
    negative. *)
Definition normalize_axis (rank : nat) (axis : Z) : option nat :=
  if (0 <=? axis)%Z then
    if (axis <? Z.of_nat rank)%Z then Some (Z.to_nat axis) else None
  else
    if (- Z.of_nat rank <=? axis)%Z then Some (Z.to_nat (Z.of_nat rank + axis))
    else None.

(** [t.shape[-1]] *)
Definition trailing_dim {St} (t : TensorType) : M St nat :=
  match normalize_axis (length (shape t)) (-1) with
  | Some a =>
      match shape t !! a with Some d => ret d | None => raise IndexError end
  | None => raise IndexError
  end.

(** [count] consecutive pieces of [size] entries each. *)
Fixpoint chunks (count size : nat) (l : list Scalar) : list (list Scalar) :=
  match count with
  | 0 => []
  | S c => take size l :: chunks c size (drop size l)
  end.

(** Seen from [axis], a tensor is [outer] blocks of [dim * inner]
    entries, one block per index of the axes before [axis]. *)
Definition outer_size (dims : list nat) (axis : nat) : nat :=
  num_elements (take axis dims).
Definition inner_size (dims : list nat) (axis : nat) : nat :=
  num_elements (drop (S axis) dims).
Definition axis_dim (dims : list nat) (axis : nat) : nat :=
  default 0 (dims !! axis).

Definition blocks (axis : nat) (t : TensorType) : list (list Scalar) :=
  chunks (outer_size (shape t) axis)
         (axis_dim (shape t) axis * inner_size (shape t) axis)
         (entries t).

(** Two shapes that differ at most at [axis]. *)
Definition same_shape_except (axis : nat) (d1 d2 : list nat) : bool :=
  bool_decide (<[axis := 0]> d1 = <[axis := 0]> d2).

(** Concatenation of at least two tensors along [axis]: all inputs have
    the same rank and agree on every axis but [axis]; block [o] of the
    result is the concatenation of the inputs' blocks [o]. *)
Definition concat_along {St} (values : list TensorType) (axis : Z)
  : M St TensorType :=
  match values with
  | [] => raise (ValueError None)
  | t0 :: _ =>
      match normalize_axis (length (shape t0)) axis with
      | None => raise InvalidArgumentError
      | Some a =>
          if forallb (fun t => same_shape_except a (shape t0) (shape t)) values
          then
            ret {| shape :=
                     <[a := sum_list (map (fun t => axis_dim (shape t) a) values)]>
                       (shape t0);
                   entries :=
                     concat
                       (foldr (zip_with app)
                              (replicate (outer_size (shape t0) a) [])
                              (map (blocks a) values)) |}
          else raise InvalidArgumentError
      end
  end.

(** [tf.concat(values, axis)]: a list of one tensor is answered with that
    tensor, whatever the axis; longer lists are concatenated. *)
Definition tf_concat {St} (values : list TensorType) (axis : Z)
  : M St TensorType :=
  match values with
  | [t] => ret t
  | _ => concat_along values axis
  end.

(** The pieces of every block, cut off one after the other. *)
Fixpoint split_blocks (inner : nat) (sizes : list nat)
    (bs : list (list Scalar)) : list (list (list Scalar)) :=
  match sizes with
  | [] => []
  | e :: es =>
      map (take (e * inner)) bs
        :: split_blocks inner es (map (drop (e * inner)) bs)
  end.

Definition Zsum (l : list Z) : Z := foldr Z.add 0%Z l.

(** The sizes [tf.split] cuts an axis of extent [dim] into, given the
    integers it is handed: at most one of them is -1 and stands for what
    the others leave of [dim]; without a -1 they must add up to [dim];
    and no size may be negative in the end (a size below -1 is refused,
    as TensorFlow's kernel does). *)
Definition resolve_sizes (dim : nat) (size_splits : list Z)
  : option (list nat) :=
  let determined := Zsum (filter (fun e => e <> (-1)%Z) size_splits) in
  let inferred := (Z.of_nat dim - determined)%Z in
  let resolved :=
    map (fun e => if bool_decide (e = (-1)%Z) then inferred else e) size_splits in
  match filter (fun e => e = (-1)%Z) size_splits with
  | [] =>
      if bool_decide (determined = Z.of_nat dim /\ Forall (fun e => (0 <= e)%Z) resolved)
      then Some (map Z.to_nat resolved) else None
  | [_] =>
      if bool_decide ((determined <= Z.of_nat dim)%Z
                      /\ Forall (fun e => (0 <= e)%Z) resolved)
      then Some (map Z.to_nat resolved) else None
  | _ => None
  end.

(** The pieces of [value] of extents [sizes] along the axis [a]. *)
Definition split_along (a : nat) (sizes : list nat) (value : TensorType)
  : list TensorType :=
  zip_with
    (fun e piece =>
       {| shape := <[a := e]> (shape value); entries := concat piece |})
    sizes
    (split_blocks (inner_size (shape value) a) sizes (blocks a value)).

(** [tf.split(value, size_splits, axis)] with a list of sizes: piece [i]
    has the [i]-th resolved size as its extent along [axis]. *)
Definition tf_split {St} (value : TensorType) (size_splits : list Z)
    (axis : Z) : M St (list TensorType) :=
  match normalize_axis (length (shape value)) axis with
  | None => raise InvalidArgumentError
  | Some a =>
      match resolve_sizes (axis_dim (shape value) a) size_splits with
      | Some sizes => ret (split_along a sizes value)
      | None => raise InvalidArgumentError
      end
  end.

(** [tf.stack(values, axis=0)]: the inputs all have the same shape and
    become the slices of a new leading axis. *)
Definition tf_stack {St} (values : list TensorType) : M St TensorType :=
  match values with
  | [] => raise (ValueError None)
  | t0 :: _ =>
      if forallb (fun t => bool_decide (shape t = shape t0)) values then
        ret {| shape := length values :: shape t0;
               entries := concat (map entries values) |}
      else raise InvalidArgumentError
  end.

(** [t[..., lo:hi]]: the columns [[lo, hi)] of the last axis, clamped to
    its extent as Python slices are. *)
Definition slice_columns (lo hi : nat) (t : TensorType) : TensorType :=
  let a := length (shape t) - 1 in
  let w := axis_dim (shape t) a in
  {| shape := <[a := Nat.min hi w - Nat.min lo w]> (shape t);
     entries :=
       concat (map (fun row => take (hi - lo) (drop lo row))
                   (chunks (outer_size (shape t) a) w (entries t))) |}.

(** [str(shape)] of a [TensorShape]: [(5, 4)], [(5,)] and [()]. *)
Definition TensorShape_str (dims : list nat) : string :=
  match dims with
  | [d] => "(" +:+ pretty d +:+ ",)"
  | _ => "(" +:+ String.concat ", " (map pretty dims) +:+ ")"
  end.

End tensors.

(** ** Datasets *)

Section datasets.
Context `{Domain}.

(** Modelled from the spec: the class [trieste.data.Dataset], imported
    by both modules, is "an immutable pair (query_points,
    observations)", index-aligned. *)
Record Dataset : Type := mkDataset {
  query_points : TensorType;
  observations : TensorType
}.

(** The tensors of a dataset have a trailing axis: the points are
    D-dimensional and the observations are output vectors. *)
Definition has_trailing_axis (t : TensorType) : Prop := shape t <> [].

End datasets.

(** ** Probabilistic models *)

Section models.
Context `{Domain}.

(** [TrainableProbabilisticModel]: an object of a class implementing the
    abstract methods.  Each method runs on the program state. *)
Record TrainableProbabilisticModel : Type := {
  predict : TensorType -> M World (TensorType * TensorType);
  predict_joint : TensorType -> M World (TensorType * TensorType);
  sample : TensorType -> nat -> M World TensorType;
  update : Dataset -> M World unit;
  optimize : Dataset -> M World unit
}.

(** A record of which method of which constituent (by position in the
    stack) was called with which arguments.  It is ghost state: the
    models cannot see it. *)
Inductive call : Type :=
  | CallPredict (i : nat) (points : TensorType)
  | CallPredictJoint (i : nat) (points : TensorType)
  | CallSample (i : nat) (points : TensorType) (num_samples : nat)
  | CallUpdate (i : nat) (dataset : Dataset)
  | CallOptimize (i : nat) (dataset : Dataset).

Record traced : Type := Traced {
  world : World;
  call_log : list call
}.

(** Calling a method of a constituent: the call is recorded, then the
    method runs on the world. *)
Definition invoke {X} (c : call) (method : M World X) : M traced X :=
  fun s =>
    let '(r, w) := method (world s) in
    (r, {| world := w; call_log := call_log s ++ [c] |}).

(** The elements of a list with their positions. *)
Definition enumerate {X} (l : list X) : list (nat * X) :=
  zip (seq 0 (length l)) l.

End models.

Module ModelStack.
Section model_stack.
Context `{Domain}.

Record t : Type := {
  _models : list TrainableProbabilisticModel;
  _event_sizes : list Z
}.

(** The constructor unzips the first pair and the other pairs, in
    order, into the tuple of models and the tuple of event sizes; the
    sizes are Python integers and are not checked. *)
Definition __init__
    (model_with_event_size : TrainableProbabilisticModel * Z)
    (models_with_event_sizes : list (TrainableProbabilisticModel * Z)) : t :=
  let pairs := model_with_event_size :: models_with_event_sizes in
  {| _models := map fst pairs; _event_sizes := map snd pairs |}.

Definition predict (self : t) (query_points : TensorType)
  : M traced (TensorType * TensorType) :=
  outs <- list_comprehension
            (fun '(i, model) =>
               invoke (CallPredict i query_points)
                      (predict model query_points))
            (enumerate (_models self)) ;;
  mean <- tf_concat (map fst outs) (-1) ;;
  var <- tf_concat (map snd outs) (-1) ;;
  ret (mean, var).

Definition predict_joint (self : t) (query_points : TensorType)
  : M traced (TensorType * TensorType) :=
  outs <- list_comprehension
            (fun '(i, model) =>
               invoke (CallPredictJoint i query_points)
                      (predict_joint model query_points))
            (enumerate (_models self)) ;;
  mean <- tf_concat (map fst outs) (-1) ;;
  cov <- tf_concat (map snd outs) (-3) ;;
  ret (mean, cov).

Definition sample (self : t) (query_points : TensorType) (num_samples : nat)
  : M traced TensorType :=
  samples <- list_comprehension
               (fun '(i, model) =>
                  invoke (CallSample i query_points num_samples)
                         (sample model query_points num_samples))
               (enumerate (_models self)) ;;
  tf_concat samples (-1).

Definition update (self : t) (dataset : Dataset) : M traced unit :=
  obs_list <- tf_split (observations dataset) (_event_sizes self) (-1) ;;
  for_each
    (fun '(i, (model, obs)) =>
       let d := mkDataset (query_points dataset) obs in
       invoke (CallUpdate i d) (update model d))
    (enumerate (zip (_models self) obs_list)).

Definition optimize (self : t) (dataset : Dataset) : M traced unit :=
  obs_list <- tf_split (observations dataset) (_event_sizes self) (-1) ;;
  for_each
    (fun '(i, (model, obs)) =>
       let d := mkDataset (query_points dataset) obs in
       invoke (CallOptimize i d) (optimize model d))
    (enumerate (zip (_models self) obs_list)).

End model_stack.
End ModelStack.

(** ** Gaussian process regression *)

Section compatibility.
Context `{Domain}.

Definition incompatible_message (what : string) (new existing : TensorType)
  : string :=
  "Shape " +:+ TensorShape_str (shape new) +:+ " of new " +:+ what
    +:+ " is incompatible with shape " +:+ TensorShape_str (shape existing)
    +:+ " of existing " +:+ what +:+ ". Trailing dimensions must match.".

Definition _assert_data_is_compatible {St} (new_data existing_data : Dataset)
  : M St unit :=
  nq <- trailing_dim (query_points new_data) ;;
  eq <- trailing_dim (query_points existing_data) ;;
  if negb (nq =? eq) then
    raise (ValueError (Some (incompatible_message "query points"
             (query_points new_data) (query_points existing_data))))
  else
    no <- trailing_dim (observations new_data) ;;
    eo <- trailing_dim (observations existing_data) ;;
    if negb (no =? eo) then
      raise (ValueError (Some (incompatible_message "observations"
               (observations new_data) (observations existing_data))))
    else ret tt.

End compatibility.

Module GaussianProcessRegression.
Section gpr.
Context `{Domain}.

(** The wrapper's state: the [data] attribute of the GPflow model it
    holds, a pair [(X, Y)]. *)
Record t : Type := { model_data : TensorType * TensorType }.

Definition get_model_data : M t (TensorType * TensorType) :=
  fun self => (Ok (model_data self), self).

Definition set_model_data (xy : TensorType * TensorType) : M t unit :=
  fun _ => (Ok tt, {| model_data := xy |}).

Definition update (dataset : Dataset) : M t unit :=
  xy <- get_model_data ;;
  (let '(x, y) := xy in
   _assert_data_is_compatible dataset (mkDataset x y) ;;;
   dq <- trailing_dim (query_points dataset) ;;
   xq <- trailing_dim x ;;
   if negb (dq =? xq) then raise (ValueError None)
   else
     dobs <- trailing_dim (observations dataset) ;;
     yobs <- trailing_dim y ;;
     if negb (dobs =? yobs) then raise (ValueError None)
     else set_model_data (query_points dataset, observations dataset)).

End gpr.
End GaussianProcessRegression.

(** ** Acquisition function builders *)

(** [None if datasets is None else datasets[tag]] *)
Definition dataset_for `{Domain} {St} (datasets : option (gmap string Dataset))
    (tag : string) : M St (option Dataset) :=
  match datasets with
  | None => ret None
  | Some ds => d <- getitem ds tag ;; ret (Some d)
  end.

(** An object of a builder class carries the implementation of the
    abstract method [prepare_acquisition_function] and, when its class
    overrides [update_acquisition_function], the overriding method.
    [base_update_acquisition_function] is the method body of the abstract
    base class, and [update_acquisition_function] is the method that
    dynamic dispatch finds. *)

Module AcquisitionFunctionBuilder.
Section builder.
Context `{Domain}.

Record t : Type := Build {
  prepare_acquisition_function :
    gmap string ProbabilisticModel -> option (gmap string Dataset)
    -> M World AcquisitionFunction;
  update_override :
    option (AcquisitionFunction -> gmap string ProbabilisticModel
            -> option (gmap string Dataset) -> M World AcquisitionFunction)
}.

Definition base_update_acquisition_function (self : t)
    (function : AcquisitionFunction)
    (models : gmap string ProbabilisticModel)
    (datasets : option (gmap string Dataset)) : M World AcquisitionFunction :=
  prepare_acquisition_function self models datasets.

Definition update_acquisition_function (self : t) :=
  match update_override self with
  | Some method => method
  | None => base_update_acquisition_function self
  end.

End builder.
End AcquisitionFunctionBuilder.

Module SingleModelAcquisitionBuilder.
Section builder.
Context `{Domain}.

Record t : Type := Build {
  prepare_acquisition_function :
    ProbabilisticModel -> option Dataset -> M World AcquisitionFunction;
  update_override :
    option (AcquisitionFunction -> ProbabilisticModel -> option Dataset
            -> M World AcquisitionFunction)
}.

Definition base_update_acquisition_function (self : t)
    (function : AcquisitionFunction) (model : ProbabilisticModel)
    (dataset : option Dataset) : M World AcquisitionFunction :=
  prepare_acquisition_function self model dataset.

Definition update_acquisition_function (self : t) :=
  match update_override self with
  | Some method => method
  | None => base_update_acquisition_function self
  end.

(** The method [using] (a reserved word here): it returns the object of
    the local class [_Anon], which overrides both methods;
    [single_builder] is [self]. *)
Definition using_ (self : t) (tag : string) : AcquisitionFunctionBuilder.t :=
  let single_builder := self in
  AcquisitionFunctionBuilder.Build
    (fun models datasets =>
       model <- getitem models tag ;;
       dataset <- dataset_for datasets tag ;;
       prepare_acquisition_function single_builder model dataset)
    (Some (fun function models datasets =>
       model <- getitem models tag ;;
       dataset <- dataset_for datasets tag ;;
       update_acquisition_function single_builder function model dataset)).

End builder.
End SingleModelAcquisitionBuilder.

Module GreedyAcquisitionFunctionBuilder.
Section builder.
Context `{Domain}.

Record t : Type := Build {
  prepare_acquisition_function :
    gmap string ProbabilisticModel -> option (gmap string Dataset)
    -> option TensorType -> M World AcquisitionFunction;
  update_override :
    option (AcquisitionFunction -> gmap string ProbabilisticModel
            -> option (gmap string Dataset) -> option TensorType -> bool
            -> M World AcquisitionFunction)
}.

Definition base_update_acquisition_function (self : t)
    (function : AcquisitionFunction)
    (models : gmap string ProbabilisticModel)
    (datasets : option (gmap string Dataset))
    (pending_points : option TensorType) (new_optimization_step : bool)
  : M World AcquisitionFunction :=
  prepare_acquisition_function self models datasets pending_points.

Definition update_acquisition_function (self : t) :=
  match update_override self with
  | Some method => method
  | None => base_update_acquisition_function self
  end.

End builder.
End GreedyAcquisitionFunctionBuilder.

Module SingleModelGreedyAcquisitionBuilder.
Section builder.
Context `{Domain}.

Record t : Type := Build {
  prepare_acquisition_function :
    ProbabilisticModel -> option Dataset -> option TensorType
    -> M World AcquisitionFunction;
  update_override :
    option (AcquisitionFunction -> ProbabilisticModel -> option Dataset
            -> option TensorType -> bool -> M World AcquisitionFunction)
}.

Definition base_update_acquisition_function (self : t)
    (function : AcquisitionFunction) (model : ProbabilisticModel)
    (dataset : option Dataset) (pending_points : option TensorType)
    (new_optimization_step : bool) : M World AcquisitionFunction :=
  prepare_acquisition_function self model dataset pending_points.

Definition update_acquisition_function (self : t) :=
  match update_override self with
  | Some method => method
  | None => base_update_acquisition_function self
  end.

(** The method [using]: it returns the object of the local class
    [_Anon], which overrides both methods; [single_builder] is [self]. *)
Definition using_ (self : t) (tag : string)
  : GreedyAcquisitionFunctionBuilder.t :=
  let single_builder := self in
  GreedyAcquisitionFunctionBuilder.Build
    (fun models datasets pending_points =>
       model <- getitem models tag ;;
       dataset <- dataset_for datasets tag ;;
       prepare_acquisition_function single_builder model dataset
         pending_points)
    (Some (fun function models datasets pending_points new_optimization_step =>
       model <- getitem models tag ;;
       dataset <- dataset_for datasets tag ;;
       update_acquisition_function single_builder function model dataset
         pending_points new_optimization_step)).

End builder.
End SingleModelGreedyAcquisitionBuilder.

(** ** Sparse variational models *)

Section leading.
Context `{Domain}.

(** [t.shape[0]] *)
Definition leading_dim {St} (t : TensorType) : M St nat :=
  match normalize_axis (length (shape t)) 0 with
  | Some a =>
      match shape t !! a with Some d => ret d | None => raise IndexError end
  | None => raise IndexError
  end.

End leading.

Module SparseVariational.
Section sparse_variational.
Context `{Domain}.

(** The wrapper's state: the dataset it keeps in [_data] and the
    [num_data] attribute of the GPflow model it holds, which is [None]
    until it is given. *)
Record t : Type := {
  _data : Dataset;
  model_num_data : option nat
}.

Definition get_data : M t Dataset := fun self => (Ok (_data self), self).

Definition set_data (data : Dataset) : M t unit :=
  fun self =>
    (Ok tt, {| _data := data; model_num_data := model_num_data self |}).

Definition set_model_num_data (n : nat) : M t unit :=
  fun self => (Ok tt, {| _data := _data self; model_num_data := Some n |}).

Definition update (dataset : Dataset) : M t unit :=
  existing <- get_data ;;
  _assert_data_is_compatible dataset existing ;;;
  set_data dataset ;;;
  num_data <- leading_dim (query_points dataset) ;;
  set_model_num_data num_data.

End sparse_variational.
End SparseVariational.

(** ** The variational wrappers

    [VariationalGaussianProcess.update] and [GPFluxModel.update] run
    GPflow, GPflux and [tf.linalg] code on the models they wrap.  What
    that code computes is taken as given: *)

Class Library `{Domain} : Type := {
  (** kernels, and the random features some of them carry *)
  Kernel : Type;
  FeatureFunctions : Type;
  feature_functions : Kernel -> option FeatureFunctions;
  with_feature_functions : FeatureFunctions -> Kernel -> Kernel;
  output_dim : FeatureFunctions -> nat;
  _sample_bias : list nat -> M FeatureFunctions TensorType;
  _sample_weights : list nat -> M FeatureFunctions TensorType;
  set_b : TensorType -> FeatureFunctions -> FeatureFunctions;
  set_W : TensorType -> FeatureFunctions -> FeatureFunctions;
  (** [kernel(x, full_cov=True)] *)
  kernel_matrix : Kernel -> TensorType -> result TensorType;
  (** [jitter * tf.eye(n)], [+], [tf.linalg.cholesky],
      [tf.linalg.triangular_solve], [tf.linalg.matrix_transpose] *)
  jitter_eye : Scalar -> nat -> TensorType;
  tensor_add : TensorType -> TensorType -> result TensorType;
  cholesky : TensorType -> result TensorType;
  triangular_solve : TensorType -> TensorType -> result TensorType;
  matrix_transpose : TensorType -> result TensorType;
  (** inducing point selectors: the constructor call and [get_points] *)
  InducingPointSelector : Type;
  get_points :
    InducingPointSelector -> TensorType -> TensorType -> nat -> Kernel
    -> result TensorType
}.

Section library_calls.
Context `{Library}.

(** A library call that returns or raises without touching the state. *)
Definition library_call {St X} (r : result X) : M St X := fun s => (r, s).

(** [t[None]] *)
Definition add_leading_axis (t : TensorType) : TensorType :=
  {| shape := 1 :: shape t; entries := entries t |}.

(** Modelled from the spec: [len(dataset)] of the class
    [trieste.data.Dataset] is the "number of points". *)
Definition len {St} (dataset : Dataset) : M St nat :=
  leading_dim (query_points dataset).

(** The whitened posterior both wrappers compute at points [x] from a
    joint prediction [(f_mu, f_cov)] and a kernel matrix [Knn]. *)
Definition whitened {St} (jitter : Scalar) (n : nat)
    (f_mu f_cov Knn : TensorType) : M St (TensorType * TensorType) :=
  let jitter_mat := jitter_eye jitter n in
  K <- library_call (tensor_add Knn jitter_mat) ;;
  Lnn <- library_call (cholesky K) ;;
  new_q_mu <- library_call (triangular_solve Lnn f_mu) ;;
  tmp <- library_call (triangular_solve (add_leading_axis Lnn) f_cov) ;;
  tmp_t <- library_call (matrix_transpose tmp) ;;
  S_v <- library_call (triangular_solve (add_leading_axis Lnn) tmp_t) ;;
  S <- library_call (tensor_add S_v jitter_mat) ;;
  new_q_sqrt <- library_call (cholesky S) ;;
  ret (new_q_mu, new_q_sqrt).

End library_calls.

Module VariationalGaussianProcess.
Section vgp.
Context `{Library}.

(** The GPflow [VGP] the wrapper holds: the attributes [update] assigns
    and the kernel. *)
Record VGP : Type := {
  data : TensorType * TensorType;
  num_data : option nat;
  q_mu : TensorType;
  q_sqrt : TensorType;
  kernel : Kernel
}.

Record t : Type := { model : VGP }.

Context (predict_f_full_cov : VGP -> TensorType
                              -> result (TensorType * TensorType)).

Definition get_model : M t VGP := fun self => (Ok (model self), self).

Definition update (dataset : Dataset) (jitter : Scalar) : M t unit :=
  model <- get_model ;;
  _assert_data_is_compatible dataset
    (mkDataset (data model).1 (data model).2) ;;;
  f <- library_call (predict_f_full_cov model (query_points dataset)) ;;
  Knn <- library_call (kernel_matrix (kernel model) (query_points dataset)) ;;
  n <- len dataset ;;
  new_q <- whitened jitter n f.1 f.2 Knn ;;
  num <- len dataset ;;
  fun _ =>
    (Ok tt,
     {| model :=
          {| data := (query_points dataset, observations dataset);
             num_data := Some num;
             q_mu := new_q.1;
             q_sqrt := new_q.2;
             kernel := kernel model |} |}).

End vgp.
End VariationalGaussianProcess.

Module GPFluxModel.
Section gpflux.
Context `{Library}.

(** The first layer of the GPflux model: the attributes [update] reads
    and assigns. *)
Record Layer : Type := {
  kernel : Kernel;
  whiten : bool;
  q_mu : TensorType;
  q_sqrt : TensorType;
  inducing_variable_Z : TensorType;
  inducing_variable_Z_trainable : bool
}.

Record t : Type := {
  f_layers : list Layer;
  _data : Dataset;
  _inducing_point_selector : InducingPointSelector;
  _max_num_inducing_points : nat;
  model_num_data : option nat
}.

Context (layer_predict_full_cov : Layer -> TensorType
                                  -> result (TensorType * TensorType)).

Definition get : M t t := fun self => (Ok self, self).

Definition set_data (dataset : Dataset) : M t unit :=
  fun self =>
    (Ok tt,
     {| f_layers := f_layers self; _data := dataset;
        _inducing_point_selector := _inducing_point_selector self;
        _max_num_inducing_points := _max_num_inducing_points self;
        model_num_data := model_num_data self |}).

(** [self.model.f_layers[0]] *)
Definition first_layer : M t Layer :=
  fun self =>
    match f_layers self with
    | layer :: _ => (Ok layer, self)
    | [] => (Raise IndexError, self)
    end.

(** Assignments to attributes of the first layer. *)
Definition set_first_layer (layer : Layer) : M t unit :=
  fun self =>
    (Ok tt,
     {| f_layers := layer :: tail (f_layers self); _data := _data self;
        _inducing_point_selector := _inducing_point_selector self;
        _max_num_inducing_points := _max_num_inducing_points self;
        model_num_data := model_num_data self |}).

Definition set_model_num_data (n : nat) : M t unit :=
  fun self =>
    (Ok tt,
     {| f_layers := f_layers self; _data := _data self;
        _inducing_point_selector := _inducing_point_selector self;
        _max_num_inducing_points := _max_num_inducing_points self;
        model_num_data := Some n |}).

(** The local function [renew_rff] of [update]. *)
Definition renew_rff (input_dim : nat) : M FeatureFunctions unit :=
  fun feature_f =>
    let shape_bias := [1; output_dim feature_f] in
    match _sample_bias shape_bias feature_f with
    | (Raise e, feature_f) => (Raise e, feature_f)
    | (Ok new_b, feature_f) =>
        let feature_f := set_b new_b feature_f in
        let shape_weights := [output_dim feature_f; input_dim] in
        match _sample_weights shape_weights feature_f with
        | (Raise e, feature_f) => (Raise e, feature_f)
        | (Ok new_W, feature_f) => (Ok tt, set_W new_W feature_f)
        end
    end.

(** [renew_rff] on the feature functions of the first layer's kernel. *)
Definition renew_layer_rff (layer : Layer) (feature_f : FeatureFunctions)
    (input_dim : nat) : M t Layer :=
  fun self =>
    let '(r, feature_f) := renew_rff input_dim feature_f in
    let layer :=
      {| kernel := with_feature_functions feature_f (kernel layer);
         whiten := whiten layer; q_mu := q_mu layer; q_sqrt := q_sqrt layer;
         inducing_variable_Z := inducing_variable_Z layer;
         inducing_variable_Z_trainable := inducing_variable_Z_trainable layer |} in
    match r with
    | Ok _ =>
        (Ok layer,
         {| f_layers := layer :: tail (f_layers self); _data := _data self;
            _inducing_point_selector := _inducing_point_selector self;
            _max_num_inducing_points := _max_num_inducing_points self;
            model_num_data := model_num_data self |})
    | Raise e =>
        (Raise e,
         {| f_layers := layer :: tail (f_layers self); _data := _data self;
            _inducing_point_selector := _inducing_point_selector self;
            _max_num_inducing_points := _max_num_inducing_points self;
            model_num_data := model_num_data self |})
    end.

Definition update (dataset : Dataset) (jitter : Scalar) : M t unit :=
  self <- get ;;
  _assert_data_is_compatible dataset (_data self) ;;;
  set_data dataset ;;;
  num_data <- leading_dim (query_points dataset) ;;
  layer <- first_layer ;;
  layer <- (match feature_functions (kernel layer) with
            | Some feature_function =>
                input_dim <- trailing_dim (query_points dataset) ;;
                renew_layer_rff layer feature_function input_dim
            | None => ret layer
            end) ;;
  (let num_inducing := Nat.min num_data (_max_num_inducing_points self) in
   Z <- library_call (get_points (_inducing_point_selector self)
                (query_points dataset) (observations dataset) num_inducing
                (kernel layer)) ;;
   new_q <- (if whiten layer then
               f <- library_call (layer_predict_full_cov layer Z) ;;
               Knn <- library_call (kernel_matrix (kernel layer) Z) ;;
               whitened jitter num_inducing f.1 f.2 Knn
             else
               f <- library_call (layer_predict_full_cov layer Z) ;;
               S <- library_call (tensor_add f.2 (jitter_eye jitter num_inducing)) ;;
               new_q_sqrt <- library_call (cholesky S) ;;
               ret (f.1, new_q_sqrt)) ;;
   set_first_layer
     {| kernel := kernel layer; whiten := whiten layer;
        q_mu := new_q.1; q_sqrt := new_q.2;
        inducing_variable_Z := Z;
        inducing_variable_Z_trainable := inducing_variable_Z_trainable layer |} ;;;
   set_model_num_data num_data).

End gpflux.
End GPFluxModel.

(** ** Vocabulary of the statements *)

Module AFB := AcquisitionFunctionBuilder.
Module SMAB := SingleModelAcquisitionBuilder.
Module GAFB := GreedyAcquisitionFunctionBuilder.
Module SMGAB := SingleModelGreedyAcquisitionBuilder.
Module GPR := GaussianProcessRegression.
Module SV := SparseVariational.
Module VGP := VariationalGaussianProcess.

Section vocabulary.
Context `{Domain}.

(** The dataset argument a tag adapter passes on: [None] when there is
    no datasets mapping, the entry under [tag] otherwise. *)
Inductive selects (tag : string)
  : option (gmap string Dataset) -> option Dataset -> Prop :=
  | selects_None : selects tag None None
  | selects_Some ds d : ds !! tag = Some d -> selects tag (Some ds) (Some d).

(** [msg] contains [s]. *)
Definition mentions (s msg : string) : Prop :=
  exists pre post, msg = pre +:+ s +:+ post.

(** The extent of the last axis, when there is one. *)
Definition width (t : TensorType) : option nat := last (shape t).

(** [new] passes the check against [existing]. *)
Definition compatible (new existing : Dataset) : Prop :=
  _assert_data_is_compatible new existing tt = (Ok tt, tt).

(** The wrapper after one call of [update] after the other, the caller
    going on after a call that raises. *)
Definition after_updates (datasets : list Dataset) (self : GPR.t) : GPR.t :=
  foldl (fun self dataset => (GPR.update dataset self).2) self datasets.

(** Two optional dataset mappings with the same entry under [tag]. *)
Definition agree_at (tag : string)
    (datasets datasets' : option (gmap string Dataset)) : Prop :=
  match datasets, datasets' with
  | None, None => True
  | Some ds, Some ds' => ds !! tag = ds' !! tag
  | _, _ => False
  end.

End vocabulary.

Section dispatch_vocabulary.
Context `{Domain}.

(** The first column of constituent [i]: the event sizes before it,
    added up. *)
Definition offset (sizes : list Z) (i : nat) : nat :=
  Z.to_nat (Zsum (take i sizes)).

(** The dataset meant for constituent [i]: the query points as they are,
    and the columns [[offset i, offset (i + 1))] of the observations. *)
Definition routed (sizes : list Z) (dataset : Dataset) : list Dataset :=
  imap (fun i _ =>
          mkDataset (query_points dataset)
            (slice_columns (offset sizes i) (offset sizes (S i))
               (observations dataset)))
       sizes.

(** [method] called on one constituent after the other, each with its
    dataset, from the world [w]: the calls go on while they return; the
    outcome is [Ok] after the last call, or what the first failing call
    raised; [w'] is the world the last call made has left, and [n] the
    number of calls made. *)
Inductive dispatched
    (method : TrainableProbabilisticModel -> Dataset -> M World unit)
  : list (TrainableProbabilisticModel * Dataset) -> World -> result unit
    -> World -> nat -> Prop :=
  | dispatched_nil w : dispatched method [] w (Ok tt) w 0
  | dispatched_return m d rest w w1 r w' n :
      method m d w = (Ok tt, w1) ->
      dispatched method rest w1 r w' n ->
      dispatched method ((m, d) :: rest) w r w' (S n)
  | dispatched_raise m d rest w e w1 :
      method m d w = (Raise e, w1) ->
      dispatched method ((m, d) :: rest) w (Raise e) w1 1.

(** The constituents asked one after the other from the world [w]: the
    answers collected while they return, or what the first failing call
    raised; [w'] is the world the last call made has left, and [n] the
    number of calls made. *)
Inductive collected {Y} (ask : TrainableProbabilisticModel -> M World Y)
  : list TrainableProbabilisticModel -> World -> result (list Y)
    -> World -> nat -> Prop :=
  | collected_nil w : collected ask [] w (Ok []) w 0
  | collected_return m rest w y w1 ys w' n :
      ask m w = (Ok y, w1) ->
      collected ask rest w1 (Ok ys) w' n ->
      collected ask (m :: rest) w (Ok (y :: ys)) w' (S n)
  | collected_raise_later m rest w y w1 e w' n :
      ask m w = (Ok y, w1) ->
      collected ask rest w1 (Raise e) w' n ->
      collected ask (m :: rest) w (Raise e) w' (S n)
  | collected_raise m rest w e w1 :
      ask m w = (Raise e, w1) ->
      collected ask (m :: rest) w (Raise e) w1 1.

(** The [[..., B, B]] blocks of a covariance of shape [[..., E, B, B]],
    one for each output: [tf.unstack(cov, axis=-3)]. *)
Definition covariance_blocks (cov : TensorType) : list TensorType :=
  let a := length (shape cov) - 3 in
  map (fun bs => {| shape := delete a (shape cov); entries := concat bs |})
      (split_blocks (inner_size (shape cov) a)
                    (replicate (axis_dim (shape cov) a) 1)
                    (blocks a cov)).

(** The reading of [predict_joint] under which the covariances of the
    constituents, or their blocks, are stacked along a new leading axis,
    next to means concatenated along the event axis. *)
Definition predict_joint_stacks (stack : ModelStack.t)
    (points : TensorType) (s : traced) : Prop :=
  forall outs w' n,
    collected (fun m => predict_joint m points) (ModelStack._models stack)
              (world s) (Ok outs) w' n ->
    exists mean cov s',
      ModelStack.predict_joint stack points s = (Ok (mean, cov), s')
      /\ tf_concat (map fst outs) (-1) s' = (Ok mean, s')
      /\ (tf_stack (map snd outs) s' = (Ok cov, s')
          \/ tf_stack (flat_map covariance_blocks (map snd outs)) s'
             = (Ok cov, s')).

(** [update] of a wrapper holding the dataset [held self] fails on a
    dataset of other trailing dimensions, with an error that shows the
    two shapes that disagree and with the wrapper left as it was, so that
    it returns only for matching dimensions. *)
Definition checks_dimensions {St} (update : Dataset -> M St unit)
    (held : St -> Dataset) : Prop :=
  forall (self : St) (dataset : Dataset),
    has_trailing_axis (query_points dataset) ->
    has_trailing_axis (observations dataset) ->
    has_trailing_axis (query_points (held self)) ->
    has_trailing_axis (observations (held self)) ->
    let matching :=
      last (shape (query_points dataset))
        = last (shape (query_points (held self)))
      /\ last (shape (observations dataset))
         = last (shape (observations (held self))) in
    ((update dataset self).1 = Ok tt -> matching)
    /\ (~ matching ->
        exists msg new old,
          update dataset self = (Raise (ValueError (Some msg)), self)
          /\ ((new, old) = (query_points dataset, query_points (held self))
              \/ (new, old) = (observations dataset, observations (held self)))
          /\ last (shape new) <> last (shape old)
          /\ mentions (TensorShape_str (shape new)) msg
          /\ mentions (TensorShape_str (shape old)) msg).

(** [update] returns for a dataset of matching trailing dimensions, and
    the wrapper then holds that dataset. *)
Definition accepts_matching {St} (update : Dataset -> M St unit)
    (held : St -> Dataset) : Prop :=
  forall (self : St) (dataset : Dataset),
    has_trailing_axis (query_points dataset) ->
    has_trailing_axis (observations dataset) ->
    has_trailing_axis (query_points (held self)) ->
    has_trailing_axis (observations (held self)) ->
    last (shape (query_points dataset))
      = last (shape (query_points (held self))) ->
    last (shape (observations dataset))
      = last (shape (observations (held self))) ->
    exists self',
      update dataset self = (Ok tt, self') /\ held self' = dataset.

(** The dataset [GaussianProcessRegression.update] checks a new one
    against: the data of the model it wraps. *)
Definition gpr_held (self : GPR.t) : Dataset :=
  mkDataset (GPR.model_data self).1 (GPR.model_data self).2.

End dispatch_vocabulary.

(** Likewise for [VariationalGaussianProcess.update]. *)
Definition vgp_held `{Library} (self : VGP.t) : Dataset :=
  mkDataset (VGP.data (VGP.model self)).1 (VGP.data (VGP.model self)).2.

(** ** Concrete instances

    A small universe in which the definitions above can be run: integer
    tensor entries, a world that counts the calls made on it, and models
    and acquisition functions named by numbers. *)

Definition demo : Domain :=
  {| Scalar := Z; World := nat; ProbabilisticModel := nat;
     AcquisitionFunction := nat |}.

Module Demo.
Section demo.
#[local] Existing Instance demo.

Definition tensor (dims : list nat) (xs : list Z) : TensorType :=
  {| shape := dims; entries := xs |}.

(** A single-model builder: the function it builds is named after the
    model and whether it was given data; it counts its calls. *)
Definition builder : SingleModelAcquisitionBuilder.t :=
  SingleModelAcquisitionBuilder.Build
    (fun model dataset w =>
       (Ok (2 * model + (if dataset is Some _ then 1 else 0)), S w))
    None.

Definition greedy_builder : SingleModelGreedyAcquisitionBuilder.t :=
  SingleModelGreedyAcquisitionBuilder.Build
    (fun model dataset pending_points w =>
       (Ok (4 * model + (if dataset is Some _ then 2 else 0)
            + (if pending_points is Some _ then 1 else 0)), S w))
    None.

Definition multi_builder : AcquisitionFunctionBuilder.t :=
  SingleModelAcquisitionBuilder.using_ builder "OBJECTIVE".

Definition multi_greedy_builder : GreedyAcquisitionFunctionBuilder.t :=
  SingleModelGreedyAcquisitionBuilder.using_ greedy_builder "OBJECTIVE".

Definition data : Dataset :=
  mkDataset (tensor [2; 1] [10; 20]%Z) (tensor [2; 3] [1; 2; 3; 4; 5; 6]%Z).

Definition narrow_data : Dataset :=
  mkDataset (tensor [2; 1] [10; 20]%Z) (tensor [2; 2] [1; 2; 4; 5]%Z).

(** A model of points with [d] coordinates and [e] outputs, updated [w]
    times when the world is [w]: it predicts [c + w] with variance
    [c + w + 1] at every point, and like the wrappers of this library it
    refuses an update whose query points do not have [d] columns or whose
    observations do not have [e]. *)
Definition counting_model (c : Z) (d e : nat) : TrainableProbabilisticModel :=
  {| predict := fun points w =>
       let n := axis_dim (shape points) 0 in
       let v := (c + Z.of_nat w)%Z in
       (Ok (tensor [n; e] (replicate (n * e) v),
            tensor [n; e] (replicate (n * e) (v + 1)%Z)), w);
     predict_joint := fun points w =>
       let b := axis_dim (shape points) 0 in
       let v := (c + Z.of_nat w)%Z in
       (Ok (tensor [b; e] (replicate (b * e) v),
            tensor [e; b; b] (replicate (e * (b * b)) (v + 1)%Z)), w);
     sample := fun points num_samples w =>
       let n := axis_dim (shape points) 0 in
       let v := (c + Z.of_nat w)%Z in
       (Ok (tensor [n; num_samples; e] (replicate (n * (num_samples * e)) v)),
        w);
     update := fun data w =>
       if bool_decide (width (query_points data) = Some d
                       /\ width (observations data) = Some e)
       then (Ok tt, S w)
       else (Raise (ValueError (Some "dimension mismatch")), w);
     optimize := fun data w =>
       if bool_decide (width (query_points data) = Some d
                       /\ width (observations data) = Some e)
       then (Ok tt, S w)
       else (Raise (ValueError (Some "dimension mismatch")), w) |}.

Definition first_pair : TrainableProbabilisticModel * Z :=
  (counting_model 1 1 1, 1%Z).
Definition other_pairs : list (TrainableProbabilisticModel * Z) :=
  [(counting_model 5 1 2, 2%Z)].

Definition stack : ModelStack.t := ModelStack.__init__ first_pair other_pairs.

(** The same models, the first declared with the size -1. *)
Definition inferring_stack : ModelStack.t :=
  ModelStack.__init__ (counting_model 1 1 1, (-1)%Z) other_pairs.

(** Three models with their event sizes, the second for points with two
    coordinates: it raises when it is updated with points that have
    one. *)
Definition failing_pairs : list (TrainableProbabilisticModel * Z) :=
  [(counting_model 5 2 2, 2%Z); (counting_model 9 1 1, 1%Z)].
Definition failing_stack : ModelStack.t :=
  ModelStack.__init__ first_pair failing_pairs.

(** A model all of whose methods raise, leaving the world alone, and a
    stack with it in the middle. *)
Definition failing_model (e : exn) : TrainableProbabilisticModel :=
  {| predict := fun _ w => (Raise e, w);
     predict_joint := fun _ w => (Raise e, w);
     sample := fun _ _ w => (Raise e, w);
     update := fun _ w => (Raise e, w);
     optimize := fun _ w => (Raise e, w) |}.
Definition broken_pairs : list (TrainableProbabilisticModel * Z) :=
  [(failing_model (OtherError 3), 1%Z); (counting_model 9 1 1, 1%Z)].
Definition broken_stack : ModelStack.t :=
  ModelStack.__init__ first_pair broken_pairs.

(** A stack of one model with two outputs, declared with seven. *)
Definition single_stack : ModelStack.t :=
  ModelStack.__init__ (counting_model 5 1 2, 7%Z) [].

(** A model of one output that predicts jointly at batches of points of
    shape [[l, b, d]]. *)
Definition batched_model (c : Z) : TrainableProbabilisticModel :=
  {| predict := fun _ w => (Raise (OtherError 0), w);
     predict_joint := fun points w =>
       let l := axis_dim (shape points) 0 in
       let b := axis_dim (shape points) 1 in
       (Ok (tensor [l; b; 1] (replicate (l * b) c),
            tensor [l; 1; b; b] (replicate (l * (b * b)) (c + 1)%Z)), w);
     sample := fun _ _ w => (Raise (OtherError 0), w);
     update := fun _ w => (Ok tt, S w);
     optimize := fun _ w => (Ok tt, S w) |}.
Definition batched_stack : ModelStack.t :=
  ModelStack.__init__ (batched_model 1, 1%Z) [(batched_model 5, 1%Z)].
Definition batched_points : TensorType :=
  tensor [3; 2; 1] [10; 20; 30; 40; 50; 60]%Z.

(** The world after four updates. *)
Definition trained : traced := {| world := 4; call_log := [] |}.

(** What the two models of [stack] predict at two points after four
    updates. *)
Definition predictions : list (TensorType * TensorType) :=
  [(tensor [2; 1] [5; 5]%Z, tensor [2; 1] [6; 6]%Z);
   (tensor [2; 2] [9; 9; 9; 9]%Z, tensor [2; 2] [10; 10; 10; 10]%Z)].

Definition joint_predictions : list (TensorType * TensorType) :=
  [(tensor [2; 1] [5; 5]%Z, tensor [1; 2; 2] [6; 6; 6; 6]%Z);
   (tensor [2; 2] [9; 9; 9; 9]%Z,
    tensor [2; 2; 2] [10; 10; 10; 10; 10; 10; 10; 10]%Z)].

(** What they sample, three samples at two points. *)
Definition samples : list TensorType :=
  [tensor [2; 3; 1] (replicate 6 5%Z); tensor [2; 3; 2] (replicate 12 9%Z)].

Definition points : TensorType := tensor [2; 1] [10; 20]%Z.

Definition start : traced := {| world := 0; call_log := [] |}.

Definition gpr : GaussianProcessRegression.t :=
  {| GaussianProcessRegression.model_data :=
       (tensor [1; 1] [0%Z], tensor [1; 3] [7; 8; 9]%Z) |}.

Definition models : gmap string nat :=
  <["CONSTRAINT" := 8]> (<["OBJECTIVE" := 7]> ∅).

Definition datasets : gmap string Dataset := <["OBJECTIVE" := data]> ∅.

End demo.
End Demo.

(** ** More concrete instances *)

Module DemoMore.
Section demo_more.
#[local] Existing Instance demo.

(** Five points with three outputs, and a dataset whose points have two
    coordinates. *)
Definition more_data : Dataset :=
  mkDataset (Demo.tensor [5; 1] (replicate 5 0%Z))
            (Demo.tensor [5; 3] (replicate 15 1%Z)).


Definition sparse : SparseVariational.t :=
  {| SparseVariational._data := Demo.data;
     SparseVariational.model_num_data := Some 2 |}.

(** Two points with four output columns. *)
Definition four_data : Dataset :=
  mkDataset (Demo.tensor [2; 1] [10; 20]%Z)
            (Demo.tensor [2; 4] [1; 2; 3; 4; 5; 6; 7; 8]%Z).

(** Two points with one output column. *)
Definition one_data : Dataset :=
  mkDataset (Demo.tensor [2; 1] [10; 20]%Z) (Demo.tensor [2; 1] [1; 4]%Z).

(** A library whose linear algebra leaves tensors as they are. *)
Definition library : Library :=
  {| Kernel := unit;
     FeatureFunctions := unit;
     feature_functions := fun _ => None;
     with_feature_functions := fun _ k => k;
     output_dim := fun _ => 1;
     _sample_bias := fun dims f => (Ok (Demo.tensor dims []), f);
     _sample_weights := fun dims f => (Ok (Demo.tensor dims []), f);
     set_b := fun _ f => f;
     set_W := fun _ f => f;
     kernel_matrix := fun _ x => Ok x;
     jitter_eye := fun jitter n => Demo.tensor [n; n] (replicate (n * n) jitter);
     tensor_add := fun a _ => Ok a;
     cholesky := fun a => Ok a;
     triangular_solve := fun _ b => Ok b;
     matrix_transpose := fun a => Ok a;
     InducingPointSelector := unit;
     get_points := fun _ x _ _ _ => Ok x |}.

#[local] Existing Instance library.

Definition vgp : VariationalGaussianProcess.t :=
  {| VariationalGaussianProcess.model :=
       {| VariationalGaussianProcess.data :=
            (query_points Demo.data, observations Demo.data);
          VariationalGaussianProcess.num_data := Some 2;
          VariationalGaussianProcess.q_mu := Demo.tensor [2; 3] (replicate 6 0%Z);
          VariationalGaussianProcess.q_sqrt :=
            Demo.tensor [3; 2; 2] (replicate 12 1%Z);
          VariationalGaussianProcess.kernel := (tt : Kernel) |} |}.

Definition gpflux : GPFluxModel.t :=
  {| GPFluxModel.f_layers :=
       [{| GPFluxModel.kernel := (tt : Kernel); GPFluxModel.whiten := true;
           GPFluxModel.q_mu := Demo.tensor [2; 3] (replicate 6 0%Z);
           GPFluxModel.q_sqrt := Demo.tensor [3; 2; 2] (replicate 12 1%Z);
           GPFluxModel.inducing_variable_Z := Demo.tensor [2; 1] [0; 1]%Z;
           GPFluxModel.inducing_variable_Z_trainable := false |}];
     GPFluxModel._data := Demo.data;
     GPFluxModel._inducing_point_selector := (tt : InducingPointSelector);
     GPFluxModel._max_num_inducing_points := 100;
     GPFluxModel.model_num_data := Some 2 |}.

(** The jitter the variational wrappers are updated with, and a joint
    prediction of their models that answers with the points twice. *)
Definition jitter : Scalar := 1%Z.
Definition predict_f {A} (model : A) (x : TensorType)
  : result (TensorType * TensorType) := Ok (x, x).

Definition other_models : gmap string nat :=
  <["FAILURE" := 9]> (<["OBJECTIVE" := 7]> ∅).

End demo_more.
End DemoMore.

(** * Properties *)

(** ** The effect monad *)

Section monad_facts.
Context {St : Type}.

Lemma bind_ret_l {X Y} (x : X) (k : X -> M St Y) s :
  bind (ret x) k s = k x s.
Proof. reflexivity. Qed.

Lemma bind_raise_l {X Y} (e : exn) (k : X -> M St Y) s :
  bind (raise e) k s = (Raise e, s).
Proof. reflexivity. Qed.

Lemma getitem_Some {V} (mapping : gmap string V) key v s :
  mapping !! key = Some v -> getitem (St := St) mapping key s = (Ok v, s).
Proof. intros E. unfold getitem. rewrite E. reflexivity. Qed.

Lemma getitem_None {V} (mapping : gmap string V) key s :
  mapping !! key = None ->
  getitem (St := St) mapping key s = (Raise (KeyError key), s).
Proof. intros E. unfold getitem. rewrite E. reflexivity. Qed.

End monad_facts.

(** ** Tag adapters *)


Section adapters.
Context `{Domain}.

Lemma dataset_for_selects {St} tag datasets dataset (s : St) :
  selects tag datasets dataset ->
  dataset_for datasets tag s = (Ok dataset, s).
Proof.
  destruct 1 as [|ds d E]; [reflexivity|].
  unfold dataset_for, bind. rewrite (getitem_Some _ _ _ _ E). reflexivity.
Qed.

Lemma dataset_for_missing {St} tag ds (s : St) :
  ds !! tag = None ->
  dataset_for (Some ds) tag s = (Raise (KeyError tag), s).
Proof.
  intros E. unfold dataset_for, bind.
  rewrite (getitem_None _ _ _ E). reflexivity.
Qed.

Lemma using_prepare (b : SMAB.t) tag models datasets m d w :
  models !! tag = Some m -> selects tag datasets d ->
  AFB.prepare_acquisition_function (SMAB.using_ b tag) models datasets w
  = SMAB.prepare_acquisition_function b m d w.
Proof.
  intros Em Ed. cbn. unfold bind.
  rewrite (getitem_Some _ _ _ _ Em), (dataset_for_selects _ _ _ _ Ed).
  reflexivity.
Qed.

Lemma using_update (b : SMAB.t) tag function models datasets m d w :
  models !! tag = Some m -> selects tag datasets d ->
  AFB.update_acquisition_function (SMAB.using_ b tag) function models datasets w
  = SMAB.update_acquisition_function b function m d w.
Proof.
  intros Em Ed. cbn. unfold bind.
  rewrite (getitem_Some _ _ _ _ Em), (dataset_for_selects _ _ _ _ Ed).
  reflexivity.
Qed.

Lemma greedy_using_prepare (b : SMGAB.t) tag models datasets pending m d w :
  models !! tag = Some m -> selects tag datasets d ->
  GAFB.prepare_acquisition_function (SMGAB.using_ b tag) models datasets
    pending w
  = SMGAB.prepare_acquisition_function b m d pending w.
Proof.
  intros Em Ed. cbn. unfold bind.
  rewrite (getitem_Some _ _ _ _ Em), (dataset_for_selects _ _ _ _ Ed).
  reflexivity.
Qed.

Lemma greedy_using_update (b : SMGAB.t) tag function models datasets pending
    step m d w :
  models !! tag = Some m -> selects tag datasets d ->
  GAFB.update_acquisition_function (SMGAB.using_ b tag) function models
    datasets pending step w
  = SMGAB.update_acquisition_function b function m d pending step w.
Proof.
  intros Em Ed. cbn. unfold bind.
  rewrite (getitem_Some _ _ _ _ Em), (dataset_for_selects _ _ _ _ Ed).
  reflexivity.
Qed.

(** C3. For a single-model builder [b] and tags [t <> other], preparing
    through [b.using(t)] with the models [{t: m, other: m2}] and the
    datasets [{t: d}] gives the result (and leaves the state) of
    [b.prepare_acquisition_function(m, d)]; more generally the result
    depends on the two mappings only through their entries under [t]. *)
Theorem using_prepare_selects_tag (b : SMAB.t) (t other : string)
    (m m2 : ProbabilisticModel) (d : Dataset) :
  t <> other ->
  (forall w,
     AFB.prepare_acquisition_function (SMAB.using_ b t)
       (<[other := m2]> (<[t := m]> ∅)) (Some (<[t := d]> ∅)) w
     = SMAB.prepare_acquisition_function b m (Some d) w)
  /\ (forall models models' datasets datasets' w,
        models !! t = models' !! t -> datasets !! t = datasets' !! t ->
        AFB.prepare_acquisition_function (SMAB.using_ b t)
          models (Some datasets) w
        = AFB.prepare_acquisition_function (SMAB.using_ b t)
            models' (Some datasets') w).
Proof.
  intros Hne. split.
  - intros w. apply using_prepare.
    + rewrite lookup_insert_ne by congruence. apply lookup_insert_eq.
    + constructor. apply lookup_insert_eq.
  - intros models models' datasets datasets' w Em Ed.
    cbn. unfold bind, getitem. rewrite Em, Ed. reflexivity.
Qed.

(** C4. For the adapters returned by [using(tag)] of both single-model
    classes, [prepare_acquisition_function] and
    [update_acquisition_function] raise [KeyError(tag)], leaving the
    state alone, when [models] lacks [tag], and also when [models] has
    it and the given [datasets] mapping lacks it; when [datasets] is
    [None] and [models] has [tag], the outcome is that of the wrapped
    builder called with [dataset=None]. *)
Theorem using_missing_tag (b : SMAB.t) (g : SMGAB.t) (tag : string)
    (models : gmap string ProbabilisticModel) :
  (models !! tag = None ->
   forall function datasets pending step w,
     AFB.prepare_acquisition_function (SMAB.using_ b tag) models datasets w
       = (Raise (KeyError tag), w)
     /\ AFB.update_acquisition_function (SMAB.using_ b tag) function models
          datasets w = (Raise (KeyError tag), w)
     /\ GAFB.prepare_acquisition_function (SMGAB.using_ g tag) models
          datasets pending w = (Raise (KeyError tag), w)
     /\ GAFB.update_acquisition_function (SMGAB.using_ g tag) function
          models datasets pending step w = (Raise (KeyError tag), w))
  /\ (forall m, models !! tag = Some m ->
      forall datasets : gmap string Dataset, datasets !! tag = None ->
      forall function pending step w,
        AFB.prepare_acquisition_function (SMAB.using_ b tag) models
          (Some datasets) w = (Raise (KeyError tag), w)
        /\ AFB.update_acquisition_function (SMAB.using_ b tag) function
             models (Some datasets) w = (Raise (KeyError tag), w)
        /\ GAFB.prepare_acquisition_function (SMGAB.using_ g tag) models
             (Some datasets) pending w = (Raise (KeyError tag), w)
        /\ GAFB.update_acquisition_function (SMGAB.using_ g tag) function
             models (Some datasets) pending step w
           = (Raise (KeyError tag), w))
  /\ (forall m, models !! tag = Some m ->
      forall function pending step w,
        AFB.prepare_acquisition_function (SMAB.using_ b tag) models None w
          = SMAB.prepare_acquisition_function b m None w
        /\ AFB.update_acquisition_function (SMAB.using_ b tag) function
             models None w
           = SMAB.update_acquisition_function b function m None w
        /\ GAFB.prepare_acquisition_function (SMGAB.using_ g tag) models
             None pending w
           = SMGAB.prepare_acquisition_function g m None pending w
        /\ GAFB.update_acquisition_function (SMGAB.using_ g tag) function
             models None pending step w
           = SMGAB.update_acquisition_function g function m None pending
               step w).
Proof.
  split; [|split].
  - intros Em function datasets pending step w.
    repeat split; cbn; unfold bind, getitem; rewrite Em; reflexivity.
  - intros m Em datasets Ed function pending step w.
    repeat split; cbn; unfold bind, dataset_for, bind, getitem;
      rewrite Em; cbn; rewrite Ed; reflexivity.
  - intros m Em function pending step w. repeat split.
    + eapply using_prepare; [eassumption | constructor].
    + eapply using_update; [eassumption | constructor].
    + eapply greedy_using_prepare; [eassumption | constructor].
    + eapply greedy_using_update; [eassumption | constructor].
Qed.

End adapters.

(** ** Inherited update methods *)

Section defaults.
Context `{Domain}.

(** C8. An [AcquisitionFunctionBuilder] or
    [SingleModelAcquisitionBuilder] whose class does not override
    [update_acquisition_function] answers it with exactly what its
    [prepare_acquisition_function] gives for the same models and
    datasets, result and state alike, whatever [function] is passed. *)
Theorem update_defaults_to_prepare :
  (forall (b : AFB.t) function models datasets,
     AFB.update_override b = None ->
     AFB.update_acquisition_function b function models datasets
     = AFB.prepare_acquisition_function b models datasets)
  /\ (forall (b : SMAB.t) function model dataset,
        SMAB.update_override b = None ->
        SMAB.update_acquisition_function b function model dataset
        = SMAB.prepare_acquisition_function b model dataset).
Proof.
  split.
  - intros b function models datasets E.
    unfold AFB.update_acquisition_function. rewrite E. reflexivity.
  - intros b function model dataset E.
    unfold SMAB.update_acquisition_function. rewrite E. reflexivity.
Qed.

(** C7. A greedy builder (multi-tag or single-model) whose class does
    not override [update_acquisition_function] answers it with what its
    [prepare_acquisition_function] gives for the same models, datasets
    and pending points, whatever [new_optimization_step] is; and the
    adapter [b.using(tag)] of a single-model greedy builder [b] hands
    [pending_points] and [new_optimization_step] to [b] as it got
    them, with the model and dataset found under [tag]. *)
Theorem greedy_update_forwarding :
  (forall (b : GAFB.t) function models datasets pending step,
     GAFB.update_override b = None ->
     GAFB.update_acquisition_function b function models datasets pending step
     = GAFB.prepare_acquisition_function b models datasets pending)
  /\ (forall (b : SMGAB.t) function model dataset pending step,
        SMGAB.update_override b = None ->
        SMGAB.update_acquisition_function b function model dataset pending
          step
        = SMGAB.prepare_acquisition_function b model dataset pending)
  /\ (forall (b : SMGAB.t) tag function models datasets pending step m d w,
        models !! tag = Some m -> selects tag datasets d ->
        GAFB.update_acquisition_function (SMGAB.using_ b tag) function
          models datasets pending step w
        = SMGAB.update_acquisition_function b function m d pending step w
        /\ GAFB.prepare_acquisition_function (SMGAB.using_ b tag) models
             datasets pending w
           = SMGAB.prepare_acquisition_function b m d pending w).
Proof.
  split; [|split].
  - intros b function models datasets pending step E.
    unfold GAFB.update_acquisition_function. rewrite E. reflexivity.
  - intros b function model dataset pending step E.
    unfold SMGAB.update_acquisition_function. rewrite E. reflexivity.
  - intros b tag function models datasets pending step m d w Em Ed. split.
    + apply greedy_using_update; assumption.
    + apply greedy_using_prepare; assumption.
Qed.

End defaults.

(** ** Dimension checks of [GaussianProcessRegression.update] *)


Section gpr_facts.
Context `{Domain}.

Lemma normalize_axis_last rank :
  normalize_axis rank (-1) = if rank is 0 then None else Some (rank - 1).
Proof.
  unfold normalize_axis. destruct rank as [|n].
  - reflexivity.
  - replace (0 <=? -1)%Z with false by reflexivity.
    destruct (Z.leb_spec (- Z.of_nat (S n)) (-1)); [|lia].
    f_equal. lia.
Qed.

Lemma trailing_dim_eq {St} (t : TensorType) (s : St) :
  trailing_dim t s
  = match last (shape t) with
    | Some d => (Ok d, s)
    | None => (Raise IndexError, s)
    end.
Proof.
  unfold trailing_dim. rewrite normalize_axis_last, last_lookup.
  destruct (shape t) as [|d ds]; [reflexivity|].
  cbn [length]. replace (S (length ds) - 1) with (Init.Nat.pred (S (length ds)))
    by (cbn; lia).
  destruct ((d :: ds) !! Init.Nat.pred (S (length ds))); reflexivity.
Qed.

Lemma bind_trailing_dim {St X} (t : TensorType) (k : nat -> M St X) s d :
  last (shape t) = Some d -> bind (trailing_dim t) k s = k d s.
Proof. intros E. unfold bind. rewrite trailing_dim_eq, E. reflexivity. Qed.

Lemma last_is_Some (t : TensorType) :
  has_trailing_axis t -> exists d, last (shape t) = Some d.
Proof.
  unfold has_trailing_axis. intros Hne.
  destruct (last (shape t)) as [d|] eqn:E; [eauto|].
  apply last_None in E. contradiction.
Qed.

Lemma string_app_assoc (a b c : string) : (a +:+ b) +:+ c = a +:+ b +:+ c.
Proof.
  induction a as [|ch a IH]; [reflexivity|].
  change (String ch ((a +:+ b) +:+ c) = String ch (a +:+ b +:+ c)).
  by rewrite IH.
Qed.

Lemma incompatible_message_mentions what new existing :
  mentions (TensorShape_str (shape new))
           (incompatible_message what new existing)
  /\ mentions (TensorShape_str (shape existing))
              (incompatible_message what new existing).
Proof.
  unfold incompatible_message, mentions. split.
  - exists "Shape ". eexists. reflexivity.
  - exists ("Shape " +:+ TensorShape_str (shape new) +:+ " of new " +:+ what
            +:+ " is incompatible with shape ").
    eexists. rewrite !string_app_assoc. reflexivity.
Qed.

(** What [_assert_data_is_compatible] does, by cases on the trailing
    dimensions. *)
Lemma assert_compatible_eq {St} (new existing : Dataset) (s : St)
    nq eq no eo :
  last (shape (query_points new)) = Some nq ->
  last (shape (query_points existing)) = Some eq ->
  last (shape (observations new)) = Some no ->
  last (shape (observations existing)) = Some eo ->
  _assert_data_is_compatible new existing s
  = if negb (nq =? eq) then
      (Raise (ValueError (Some (incompatible_message "query points"
                (query_points new) (query_points existing)))), s)
    else if negb (no =? eo) then
      (Raise (ValueError (Some (incompatible_message "observations"
                (observations new) (observations existing)))), s)
    else (Ok tt, s).
Proof.
  intros E1 E2 E3 E4. unfold _assert_data_is_compatible.
  rewrite (bind_trailing_dim _ _ _ _ E1), (bind_trailing_dim _ _ _ _ E2).
  destruct (negb (nq =? eq)); [reflexivity|].
  rewrite (bind_trailing_dim _ _ _ _ E3), (bind_trailing_dim _ _ _ _ E4).
  destruct (negb (no =? eo)); reflexivity.
Qed.

Lemma bind_trailing_dim_cases {St X} (t : TensorType) (k : nat -> M St X) s :
  bind (trailing_dim t) k s
  = match last (shape t) with
    | Some d => k d s
    | None => (Raise IndexError, s)
    end.
Proof.
  unfold bind. rewrite trailing_dim_eq. destruct (last (shape t)); reflexivity.
Qed.

(** The outcomes of [_assert_data_is_compatible]: it returns only when
    both pairs of trailing dimensions exist and agree, and what it
    raises is an [IndexError] or one of its two messages. *)
Lemma assert_compatible_outcome {St} (new existing : Dataset) (s : St) :
  (exists dq dobs,
     _assert_data_is_compatible new existing s = (Ok tt, s)
     /\ last (shape (query_points new)) = Some dq
     /\ last (shape (query_points existing)) = Some dq
     /\ last (shape (observations new)) = Some dobs
     /\ last (shape (observations existing)) = Some dobs)
  \/ _assert_data_is_compatible new existing s = (Raise IndexError, s)
  \/ _assert_data_is_compatible new existing s
      = (Raise (ValueError (Some (incompatible_message "query points"
                  (query_points new) (query_points existing)))), s)
  \/ _assert_data_is_compatible new existing s
      = (Raise (ValueError (Some (incompatible_message "observations"
                  (observations new) (observations existing)))), s).
Proof.
  unfold _assert_data_is_compatible.
  rewrite bind_trailing_dim_cases.
  destruct (last (shape (query_points new))) as [nq|]; [|tauto].
  rewrite bind_trailing_dim_cases.
  destruct (last (shape (query_points existing))) as [eq|]; [|tauto].
  destruct (Nat.eqb_spec nq eq) as [->|Nq]; cbn [negb]; [|tauto].
  rewrite bind_trailing_dim_cases.
  destruct (last (shape (observations new))) as [no|]; [|tauto].
  rewrite bind_trailing_dim_cases.
  destruct (last (shape (observations existing))) as [eo|]; [|tauto].
  destruct (Nat.eqb_spec no eo) as [->|No]; cbn [negb]; [|tauto].
  left. exists eq, eo. tauto.
Qed.

(** C10. [GaussianProcessRegression.update] never raises the bare
    [ValueError] of its own two re-checks: whenever
    [_assert_data_is_compatible] returns, both pairs of trailing
    dimensions agree, so the re-checks pass and the data is replaced;
    and whatever [update] raises was raised by
    [_assert_data_is_compatible], with its message when it is a
    [ValueError]. *)
Theorem gpr_update_bare_raise_unreachable (self : GPR.t) (dataset : Dataset) :
  let x := (GPR.model_data self).1 in
  let y := (GPR.model_data self).2 in
  (GPR.update dataset self).1 <> Raise (ValueError None)
  /\ (_assert_data_is_compatible dataset (mkDataset x y) self = (Ok tt, self) ->
      GPR.update dataset self
      = (Ok tt, {| GPR.model_data :=
                     (query_points dataset, observations dataset) |}))
  /\ (forall e, (GPR.update dataset self).1 = Raise e ->
      GPR.update dataset self
        = _assert_data_is_compatible dataset (mkDataset x y) self
      /\ (e = IndexError
          \/ e = ValueError (Some (incompatible_message "query points"
                                     (query_points dataset) x))
          \/ e = ValueError (Some (incompatible_message "observations"
                                     (observations dataset) y)))).
Proof.
  destruct self as [[x y]]. cbn [GPR.model_data fst snd]. cbv zeta.
  set (self := {| GPR.model_data := (x, y) |}).
  assert (Hrun : GPR.update dataset self
    = match _assert_data_is_compatible dataset (mkDataset x y) self with
      | (Ok _, _) =>
          (Ok tt, {| GPR.model_data :=
                       (query_points dataset, observations dataset) |})
      | (Raise e, s') => (Raise e, s')
      end).
  { unfold GPR.update, bind at 1. cbn [GPR.get_model_data GPR.model_data self].
    fold self. unfold bind at 1.
    destruct (assert_compatible_outcome dataset (mkDataset x y) self)
      as [(dq & dobs & -> & Eq & Ex & Eo & Ey) | [-> | [-> | ->]]];
      try reflexivity.
    cbn [query_points observations] in Ex, Ey.
    rewrite (bind_trailing_dim _ _ _ _ Eq), (bind_trailing_dim _ _ _ _ Ex).
    rewrite Nat.eqb_refl. cbn [negb].
    rewrite (bind_trailing_dim _ _ _ _ Eo), (bind_trailing_dim _ _ _ _ Ey).
    rewrite Nat.eqb_refl. reflexivity. }
  rewrite Hrun.
  destruct (assert_compatible_outcome dataset (mkDataset x y) self)
    as [(dq & dobs & -> & _) | [-> | [-> | ->]]]; cbn [fst].
  - split; [discriminate|]. split; [reflexivity|]. discriminate.
  - split; [discriminate|]. split; [discriminate|].
    intros e [= <-]. split; [reflexivity|]. tauto.
  - split; [discriminate|]. split; [discriminate|].
    intros e [= <-]. split; [reflexivity|]. tauto.
  - split; [discriminate|]. split; [discriminate|].
    intros e [= <-]. split; [reflexivity|]. tauto.
Qed.

End gpr_facts.

(** ** The compatibility check *)

Section compatibility_facts.
Context `{Domain}.

Lemma width_of_trailing_axis (t : TensorType) :
  has_trailing_axis t -> exists d, width t = Some d.
Proof. apply last_is_Some. Qed.

(** The check returns exactly when both pairs of trailing dimensions
    exist and agree; the state plays no part. *)
Lemma assert_returns_iff {St} (new existing : Dataset) (s : St) :
  _assert_data_is_compatible new existing s = (Ok tt, s)
  <-> exists dq dobs,
        width (query_points new) = Some dq
        /\ width (query_points existing) = Some dq
        /\ width (observations new) = Some dobs
        /\ width (observations existing) = Some dobs.
Proof.
  unfold width. split.
  - intros E.
    destruct (assert_compatible_outcome new existing s)
      as [(dq & dobs & _ & ?) | [E' | [E' | E']]]; [by eauto | congruence..].
  - intros (dq & dobs & E1 & E2 & E3 & E4).
    rewrite (assert_compatible_eq new existing s dq dq dobs dobs) by done.
    by rewrite !Nat.eqb_refl.
Qed.

Lemma compatible_iff (new existing : Dataset) :
  compatible new existing
  <-> exists dq dobs,
        width (query_points new) = Some dq
        /\ width (query_points existing) = Some dq
        /\ width (observations new) = Some dobs
        /\ width (observations existing) = Some dobs.
Proof. apply assert_returns_iff. Qed.

(** Passing [_assert_data_is_compatible] is an equivalence between
    datasets whose tensors have a trailing axis, and it looks at nothing
    but the trailing dimensions: the number of points and the entries
    are free. *)
Theorem compatible_is_equivalence :
  (forall d : Dataset,
     has_trailing_axis (query_points d) ->
     has_trailing_axis (observations d) -> compatible d d)
  /\ (forall a b : Dataset, compatible a b -> compatible b a)
  /\ (forall a b c : Dataset, compatible a b -> compatible b c -> compatible a c)
  /\ (forall a a' b : Dataset,
        width (query_points a) = width (query_points a') ->
        width (observations a) = width (observations a') ->
        compatible a b -> compatible a' b).
Proof.
  split; [|split; [|split]].
  - intros d Hq Ho. apply compatible_iff.
    destruct (width_of_trailing_axis _ Hq) as [dq Eq],
      (width_of_trailing_axis _ Ho) as [dobs Eo]. by exists dq, dobs.
  - intros a b (dq & dobs & ? & ? & ? & ?)%compatible_iff.
    apply compatible_iff. by exists dq, dobs.
  - intros a b c (dq & dobs & ? & ? & ? & ?)%compatible_iff
      (dq' & dobs' & ? & ? & ? & ?)%compatible_iff.
    apply compatible_iff. exists dq, dobs. repeat split; congruence.
  - intros a a' b Eq Eo (dq & dobs & ? & ? & ? & ?)%compatible_iff.
    apply compatible_iff. exists dq, dobs. repeat split; congruence.
Qed.


End compatibility_facts.

(** ** Successive updates of [GaussianProcessRegression] *)

Section gpr_more.
Context `{Domain}.

(** [update] in terms of the check alone. *)
Lemma gpr_update_eq (self : GPR.t) (dataset : Dataset) :
  GPR.update dataset self
  = match _assert_data_is_compatible dataset
            (mkDataset (GPR.model_data self).1 (GPR.model_data self).2) self
    with
    | (Ok _, _) =>
        (Ok tt, {| GPR.model_data :=
                     (query_points dataset, observations dataset) |})
    | (Raise e, s') => (Raise e, s')
    end.
Proof.
  destruct self as [[x y]]. cbn [GPR.model_data fst snd].
  set (self := {| GPR.model_data := (x, y) |}).
  unfold GPR.update, bind at 1. cbn [GPR.get_model_data GPR.model_data self].
  fold self. unfold bind at 1.
  destruct (assert_compatible_outcome dataset (mkDataset x y) self)
    as [(dq & dobs & -> & Eq & Ex & Eo & Ey) | [-> | [-> | ->]]];
    try reflexivity.
  cbn [query_points observations] in Ex, Ey.
  rewrite (bind_trailing_dim _ _ _ _ Eq), (bind_trailing_dim _ _ _ _ Ex).
  rewrite Nat.eqb_refl. cbn [negb].
  rewrite (bind_trailing_dim _ _ _ _ Eo), (bind_trailing_dim _ _ _ _ Ey).
  by rewrite Nat.eqb_refl.
Qed.

(** [update] either replaces the data by a dataset with the same
    trailing dimensions, or raises and leaves the wrapper as it was. *)
Lemma gpr_update_outcome (self : GPR.t) (dataset : Dataset) :
  (GPR.update dataset self
   = (Ok tt, {| GPR.model_data :=
                  (query_points dataset, observations dataset) |})
   /\ compatible dataset
        (mkDataset (GPR.model_data self).1 (GPR.model_data self).2))
  \/ (exists e, GPR.update dataset self = (Raise e, self)
      /\ ~ compatible dataset
             (mkDataset (GPR.model_data self).1 (GPR.model_data self).2)).
Proof.
  rewrite gpr_update_eq.
  set (existing := mkDataset _ _).
  destruct (assert_compatible_outcome dataset existing self)
    as [(dq & dobs & E & Eq & Ex & Eo & Ey) | Hraise].
  - left. rewrite E. split; [done|]. apply compatible_iff. by exists dq, dobs.
  - right.
    assert (exists e, _assert_data_is_compatible dataset existing self
                      = (Raise e, self)) as [e E].
    { destruct Hraise as [E | [E | E]]; eauto. }
    exists e. rewrite E. split; [done|].
    intros Hc%compatible_iff. apply (assert_returns_iff _ _ self) in Hc.
    congruence.
Qed.

(** Whatever datasets [update] is called with, one call after the other,
    and whether the calls return or raise, the trailing dimensions of the
    data the wrapper holds stay those it started with. *)
Theorem gpr_updates_keep_dimensions (datasets : list Dataset) (self : GPR.t) :
  width (GPR.model_data (after_updates datasets self)).1
    = width (GPR.model_data self).1
  /\ width (GPR.model_data (after_updates datasets self)).2
     = width (GPR.model_data self).2.
Proof.
  revert self. induction datasets as [|d ds IH]; intros self; [done|].
  change (after_updates (d :: ds) self)
    with (after_updates ds (GPR.update d self).2).
  destruct (IH (GPR.update d self).2) as [IH1 IH2]. rewrite IH1, IH2.
  destruct (gpr_update_outcome self d) as [[-> Hc] | (e & -> & _)]; [|done].
  apply compatible_iff in Hc as (dq & dobs & Eq & Ex & Eo & Ey).
  cbn [snd fst GPR.model_data query_points observations] in *.
  split; congruence.
Qed.

(** [update] replaces the data, it does not add to it: after a call that
    returned, the same call again changes nothing, and a call with
    another dataset returns exactly when it would have returned before,
    leaving the wrapper in the same state as it would have then. *)
Theorem gpr_update_replaces (self : GPR.t) (d1 d2 : Dataset) :
  (GPR.update d1 self).1 = Ok tt ->
  let self1 := (GPR.update d1 self).2 in
  GPR.update d1 self1 = (Ok tt, self1)
  /\ ((GPR.update d2 self1).1 = Ok tt <-> (GPR.update d2 self).1 = Ok tt)
  /\ ((GPR.update d2 self).1 = Ok tt ->
      GPR.update d2 self1 = GPR.update d2 self).
Proof.
  intros E1. cbv zeta.
  destruct (gpr_update_outcome self d1) as [[E Hc] | (e & E & _)];
    rewrite E in E1 |- *; [|discriminate]. cbn [snd]. clear E1.
  set (self1 := {| GPR.model_data := _ |}).
  assert (Hsame : forall d,
            compatible d (mkDataset (GPR.model_data self1).1
                                    (GPR.model_data self1).2)
            <-> compatible d (mkDataset (GPR.model_data self).1
                                        (GPR.model_data self).2)).
  { intros d. apply compatible_iff in Hc as (dq & dobs & Eq & Ex & Eo & Ey).
    cbn [query_points observations GPR.model_data self1 fst snd] in *.
    rewrite !compatible_iff. cbn [query_points observations].
    split; intros (dq' & dobs' & ? & ? & ? & ?); exists dq', dobs';
      repeat split; congruence. }
  assert (Hok : forall s d, (GPR.update d s).1 = Ok tt
            <-> compatible d (mkDataset (GPR.model_data s).1
                                        (GPR.model_data s).2)).
  { intros s d. destruct (gpr_update_outcome s d)
      as [[-> Hd] | (e & -> & Hd)]; cbn [fst]; split; try done. }
  split; [|split].
  - destruct (gpr_update_outcome self1 d1) as [[E1 _] | (e & _ & Hn)].
    + exact E1.
    + exfalso. apply Hn, Hsame, Hc.
  - rewrite !Hok. apply Hsame.
  - intros E2. pose proof E2 as E2'. apply Hok, Hsame in E2'.
    apply Hok in E2.
    destruct (gpr_update_outcome self d2) as [[-> _] | (e & _ & Hn)]; [|done].
    destruct (gpr_update_outcome self1 d2) as [[-> _] | (e & _ & Hn)]; done.
Qed.

End gpr_more.

(** ** [SparseVariational.update] *)

Section sparse_variational_facts.
Context `{Domain}.

Lemma leading_dim_eq {St} (t : TensorType) (s : St) :
  leading_dim t s
  = match head (shape t) with
    | Some d => (Ok d, s)
    | None => (Raise IndexError, s)
    end.
Proof.
  unfold leading_dim, normalize_axis.
  destruct (shape t) as [|d ds]; [reflexivity|].
  cbn [length]. replace (0 <=? 0)%Z with true by reflexivity.
  destruct (Z.ltb_spec 0 (Z.of_nat (S (length ds)))); [reflexivity | lia].
Qed.

(** [update] in terms of the check alone. *)
Lemma sparse_variational_update_eq (self : SV.t) (dataset : Dataset) :
  SV.update dataset self
  = match _assert_data_is_compatible dataset (SV._data self) self with
    | (Ok _, _) =>
        match head (shape (query_points dataset)) with
        | Some n =>
            (Ok tt, {| SV._data := dataset; SV.model_num_data := Some n |})
        | None =>
            (Raise IndexError,
             {| SV._data := dataset;
                SV.model_num_data := SV.model_num_data self |})
        end
    | (Raise e, _) => (Raise e, self)
    end.
Proof.
  unfold SV.update, bind at 1. cbn [SV.get_data]. unfold bind at 1.
  destruct (assert_compatible_outcome dataset (SV._data self) self)
    as [(dq & dobs & -> & _) | [-> | [-> | ->]]]; try reflexivity.
  unfold bind at 1. cbn [SV.set_data]. unfold bind at 1.
  rewrite leading_dim_eq.
  by destruct (head (shape (query_points dataset))).
Qed.

(** [update] is all or nothing: either the new dataset passes the check
    against the one held, and then the wrapper holds the new dataset and
    the number of its points, or the check raises, [update] raises the
    same, and the wrapper is as it was. *)
Theorem sparse_variational_update_all_or_nothing
    (self : SV.t) (dataset : Dataset) :
  (compatible dataset (SV._data self)
   /\ exists n,
        head (shape (query_points dataset)) = Some n
        /\ SV.update dataset self
           = (Ok tt, {| SV._data := dataset; SV.model_num_data := Some n |}))
  \/ (~ compatible dataset (SV._data self)
      /\ exists e,
           _assert_data_is_compatible dataset (SV._data self) self
             = (Raise e, self)
           /\ SV.update dataset self = (Raise e, self)).
Proof.
  rewrite sparse_variational_update_eq.
  destruct (assert_compatible_outcome dataset (SV._data self) self)
    as [(dq & dobs & E & Eq & Ex & Eo & Ey) | Hraise].
  - left. split; [apply compatible_iff; by exists dq, dobs|].
    rewrite E.
    destruct (shape (query_points dataset)) as [|n ds] eqn:Es; [done|].
    exists n. split; reflexivity.
  - right.
    assert (exists e, _assert_data_is_compatible dataset (SV._data self) self
                      = (Raise e, self)) as [e E].
    { destruct Hraise as [E | [E | E]]; eauto. }
    split.
    + intros Hc%compatible_iff. apply (assert_returns_iff _ _ self) in Hc.
      congruence.
    + exists e. by rewrite E.
Qed.

End sparse_variational_facts.

(** ** Tag adapters and inherited updates together *)

Section adapters_more.
Context `{Domain}.

(** When the wrapped single-model builder inherits its update, the
    adapter's update is the adapter's prepare: the function passed in is
    ignored, and so is [new_optimization_step] for a greedy builder,
    missing tags included. *)
Theorem using_update_is_using_prepare :
  (forall (b : SMAB.t) tag function models datasets w,
     SMAB.update_override b = None ->
     AFB.update_acquisition_function (SMAB.using_ b tag) function models
       datasets w
     = AFB.prepare_acquisition_function (SMAB.using_ b tag) models datasets w)
  /\ (forall (g : SMGAB.t) tag function models datasets pending step w,
        SMGAB.update_override g = None ->
        GAFB.update_acquisition_function (SMGAB.using_ g tag) function models
          datasets pending step w
        = GAFB.prepare_acquisition_function (SMGAB.using_ g tag) models
            datasets pending w).
Proof.
  split.
  - intros b tag function models datasets w E. cbn.
    unfold SMAB.update_acquisition_function. rewrite E. reflexivity.
  - intros g tag function models datasets pending step w E. cbn.
    unfold SMGAB.update_acquisition_function. rewrite E. reflexivity.
Qed.

Lemma dataset_for_agree {St} tag datasets datasets' (s : St) :
  agree_at tag datasets datasets' ->
  dataset_for datasets tag s = dataset_for datasets' tag s.
Proof.
  destruct datasets as [ds|], datasets' as [ds'|]; cbn; try done.
  intros E. unfold bind, getitem. by rewrite E.
Qed.

(** What the adapters of [using(tag)] do, prepare and update, plain and
    greedy, depends on the two mappings only through their entries under
    [tag]: entries under other tags can be added, changed or removed. *)
Theorem using_reads_only_its_tag (b : SMAB.t) (g : SMGAB.t) (tag : string)
    (models models' : gmap string ProbabilisticModel)
    (datasets datasets' : option (gmap string Dataset)) :
  models !! tag = models' !! tag ->
  agree_at tag datasets datasets' ->
  forall function pending step w,
    AFB.prepare_acquisition_function (SMAB.using_ b tag) models datasets w
    = AFB.prepare_acquisition_function (SMAB.using_ b tag) models' datasets' w
    /\ AFB.update_acquisition_function (SMAB.using_ b tag) function models
         datasets w
       = AFB.update_acquisition_function (SMAB.using_ b tag) function models'
           datasets' w
    /\ GAFB.prepare_acquisition_function (SMGAB.using_ g tag) models datasets
         pending w
       = GAFB.prepare_acquisition_function (SMGAB.using_ g tag) models'
           datasets' pending w
    /\ GAFB.update_acquisition_function (SMGAB.using_ g tag) function models
         datasets pending step w
       = GAFB.update_acquisition_function (SMGAB.using_ g tag) function
           models' datasets' pending step w.
Proof.
  intros Em Ed function pending step w.
  repeat split; cbn; unfold bind, getitem; rewrite Em;
    destruct (models' !! tag); try reflexivity;
    cbn; rewrite (dataset_for_agree tag datasets datasets' w Ed);
    reflexivity.
Qed.

End adapters_more.

(** ** Splitting observations *)

Section splitting.
Context `{Domain}.

Lemma Zsum_cons (e : Z) (l : list Z) : Zsum (e :: l) = (e + Zsum l)%Z.
Proof. reflexivity. Qed.

Lemma Zsum_app (l1 l2 : list Z) : Zsum (l1 ++ l2) = (Zsum l1 + Zsum l2)%Z.
Proof. unfold Zsum. induction l1 as [|e l1 IH]; cbn; [done|]. rewrite IH. lia. Qed.

Lemma Zsum_nonneg (l : list Z) :
  Forall (fun e => (0 <= e)%Z) l -> (0 <= Zsum l)%Z.
Proof. unfold Zsum. induction 1 as [|e l He _ IH]; cbn; lia. Qed.

Lemma Zsum_of_nat (ns : list nat) :
  Zsum (Z.of_nat <$> ns) = Z.of_nat (sum_list ns).
Proof. unfold Zsum. induction ns as [|e ns IH]; cbn; [done|]. rewrite IH. lia. Qed.

Lemma of_nat_nonneg (ns : list nat) :
  Forall (fun e => (0 <= e)%Z) (Z.of_nat <$> ns).
Proof. apply Forall_fmap, Forall_true. intros e. cbn. lia. Qed.

Lemma to_nat_of_nat (ns : list nat) : Z.to_nat <$> (Z.of_nat <$> ns) = ns.
Proof.
  rewrite <- list_fmap_compose. rewrite <- (list_fmap_id ns) at 2.
  apply list_fmap_ext. intros _ e _. cbn. lia.
Qed.

Lemma to_nat_Zsum (l : list Z) :
  Forall (fun e => (0 <= e)%Z) l ->
  Z.to_nat (Zsum l) = sum_list (Z.to_nat <$> l).
Proof.
  induction 1 as [|e l He Hl IH]; [done|].
  pose proof (Zsum_nonneg l Hl).
  rewrite fmap_cons, Zsum_cons, Z2Nat.inj_add by done. by rewrite IH.
Qed.

(** For sizes that are not negative, [offset] adds up natural numbers. *)
Lemma offset_nonneg (sizes : list Z) i :
  Forall (fun e => (0 <= e)%Z) sizes ->
  offset sizes i = sum_list (take i (Z.to_nat <$> sizes)).
Proof.
  intros Hs. unfold offset. rewrite <- fmap_take.
  apply to_nat_Zsum. by apply Forall_take.
Qed.

Lemma sum_take_le (sizes : list nat) i :
  sum_list (take i sizes) <= sum_list sizes.
Proof.
  rewrite <- (take_drop i sizes) at 2. rewrite sum_list_with_app. lia.
Qed.

Lemma sum_take_S (sizes : list nat) i e :
  sizes !! i = Some e ->
  sum_list (take (S i) sizes) = sum_list (take i sizes) + e.
Proof.
  intros E. rewrite (take_S_r _ _ _ E), sum_list_with_app. cbn. lia.
Qed.

(** Sizes none of which is negative are taken as they are: without a -1
    nothing is inferred, and they must add up to the extent. *)
Lemma no_inferred_size (sizes : list Z) (x : Z) :
  Forall (fun e => (0 <= e)%Z) sizes ->
  filter (fun e => e <> (-1)%Z) sizes = sizes
  /\ filter (fun e => e = (-1)%Z) sizes = []
  /\ map (fun e => if bool_decide (e = (-1)%Z) then x else e) sizes = sizes.
Proof.
  induction 1 as [|e l He _ (IH1 & IH2 & IH3)]; [done|].
  rewrite filter_cons_True, filter_cons_False by lia.
  cbn [map]. rewrite bool_decide_eq_false_2 by lia.
  by rewrite IH1, IH2, IH3.
Qed.

Lemma resolve_sizes_nonneg (dim : nat) (sizes : list Z) :
  Forall (fun e => (0 <= e)%Z) sizes ->
  resolve_sizes dim sizes
  = if bool_decide (Zsum sizes = Z.of_nat dim)
    then Some (Z.to_nat <$> sizes) else None.
Proof.
  intros Hs. unfold resolve_sizes.
  destruct (no_inferred_size sizes (Z.of_nat dim - Zsum sizes) Hs)
    as (E1 & E2 & E3).
  rewrite E1, E2, E3.
  destruct (decide (Zsum sizes = Z.of_nat dim)) as [E|N].
  - by rewrite !bool_decide_eq_true_2.
  - rewrite !bool_decide_eq_false_2; [done | done | tauto].
Qed.

(** The pieces that [split_blocks] cuts from rows already advanced by
    [lo] columns are the column ranges that start at [lo]. *)
Lemma split_blocks_rows (rows : list (list Scalar)) (sizes : list nat) lo i e :
  sizes !! i = Some e ->
  split_blocks 1 sizes (map (drop lo) rows) !! i
  = Some (map (fun row => take e (drop (lo + sum_list (take i sizes)) row))
              rows).
Proof.
  revert lo i. induction sizes as [|e0 es IH]; intros lo i E; [done|].
  destruct i as [|i]; cbn in E |- *.
  - injection E as ->. f_equal. rewrite map_map.
    apply map_ext. intros row. by rewrite Nat.mul_1_r, Nat.add_0_r.
  - rewrite map_map.
    rewrite (map_ext (fun row => drop (e0 * 1) (drop lo row)) (drop (lo + e0)))
      by (intros row; rewrite drop_drop; f_equal; lia).
    etrans; [exact (IH (lo + e0) i E)|]. f_equal.
    apply map_ext. intros row. do 2 f_equal. lia.
Qed.

Lemma length_split_blocks inner sizes (bs : list (list Scalar)) :
  length (split_blocks inner sizes bs) = length sizes.
Proof.
  revert bs. induction sizes as [|e es IH]; intros bs; cbn; [done|].
  by rewrite IH.
Qed.

Lemma width_axis_dim (t : TensorType) (w : nat) :
  width t = Some w ->
  exists n, length (shape t) = S n /\ axis_dim (shape t) (S n - 1) = w.
Proof.
  unfold width. intros W.
  destruct (length (shape t)) as [|n] eqn:Hlen.
  { destruct (shape t); [done | discriminate]. }
  exists n. split; [done|].
  unfold axis_dim. rewrite last_lookup, Hlen in W.
  replace (S n - 1) with (Init.Nat.pred (S n)) by (cbn; lia).
  by rewrite W.
Qed.

(** With sizes that are not negative and add up to the width,
    [tf.split] along the last axis returns one piece per size, and piece
    [i] is the column range [[offset i, offset (i + 1))]. *)
Lemma tf_split_columns {St} (t : TensorType) (sizes : list Z) (s : St) :
  Forall (fun e => (0 <= e)%Z) sizes ->
  Z.of_nat <$> width t = Some (Zsum sizes) ->
  tf_split t sizes (-1) s
  = (Ok (imap (fun i _ =>
                 slice_columns (offset sizes i) (offset sizes (S i)) t)
              sizes), s).
Proof.
  intros Hs W.
  destruct (width t) as [w|] eqn:Ew; [|done]. injection W as W.
  destruct (width_axis_dim t w Ew) as (n & Hlen & Hdim).
  unfold tf_split. rewrite normalize_axis_last, Hlen, Hdim.
  rewrite (resolve_sizes_nonneg _ _ Hs), bool_decide_eq_true_2 by done.
  unfold ret. do 2 f_equal. apply list_eq. intros i.
  unfold split_along. rewrite lookup_zip_with, list_lookup_imap, list_lookup_fmap.
  destruct (sizes !! i) as [e|] eqn:E; [|done]. cbn [fmap option_fmap option_map
    mbind option_bind].
  assert (En : (Z.to_nat <$> sizes) !! i = Some (Z.to_nat e))
    by (by rewrite list_lookup_fmap, E).
  assert (Hinner : inner_size (shape t) (S n - 1) = 1).
  { unfold inner_size. rewrite drop_ge by lia. reflexivity. }
  rewrite Hinner. unfold blocks. rewrite Hinner, Hdim, Nat.mul_1_r.
  set (rows := chunks _ _ _).
  rewrite <- (map_id rows) at 1.
  rewrite (map_ext id (drop 0)) by reflexivity.
  rewrite (split_blocks_rows rows _ 0 i _ En). cbn [mbind option_bind].
  f_equal. unfold slice_columns. rewrite Hlen, Hdim. fold rows.
  rewrite !(offset_nonneg _ _ Hs), (sum_take_S _ _ _ En).
  pose proof (sum_take_le (Z.to_nat <$> sizes) (S i)) as Hle.
  rewrite (sum_take_S _ _ _ En), <- to_nat_Zsum, <- W, Nat2Z.id in Hle by done.
  f_equal.
  - f_equal. lia.
  - f_equal. apply map_ext. intros row. cbn. do 2 f_equal. lia.
Qed.

(** With sizes that are not negative and do not add up to the width, it
    raises and the state is as before. *)
Lemma tf_split_mismatch {St} (t : TensorType) (sizes : list Z) (s : St) :
  Forall (fun e => (0 <= e)%Z) sizes ->
  Z.of_nat <$> width t <> Some (Zsum sizes) ->
  tf_split t sizes (-1) s = (Raise InvalidArgumentError, s).
Proof.
  unfold width, tf_split. intros Hs W. rewrite normalize_axis_last.
  destruct (length (shape t)) as [|n] eqn:Hlen; [reflexivity|].
  rewrite (resolve_sizes_nonneg _ _ Hs).
  rewrite bool_decide_eq_false_2; [reflexivity|].
  intros E. apply W. rewrite last_lookup, Hlen.
  unfold axis_dim in E.
  replace (S n - 1) with (Init.Nat.pred (S n)) in E by (cbn; lia).
  destruct (shape t !! Init.Nat.pred (S n)) as [d|] eqn:Ed.
  - cbn in E |- *. congruence.
  - apply lookup_ge_None in Ed. cbn in Ed. lia.
Qed.

End splitting.

(** ** Routing of datasets through a [ModelStack] *)

Section routing.
Context `{Domain}.

Lemma init_lengths first rest :
  length (ModelStack._models (ModelStack.__init__ first rest))
  = length (ModelStack._event_sizes (ModelStack.__init__ first rest)).
Proof. cbn. by rewrite !length_map. Qed.

Lemma length_routed sizes dataset : length (routed sizes dataset) = length sizes.
Proof. unfold routed. apply length_imap. Qed.

(** A run of calls has one outcome. *)
Lemma dispatched_unique method l w r1 w1 n1 r2 w2 n2 :
  dispatched method l w r1 w1 n1 -> dispatched method l w r2 w2 n2 ->
  r1 = r2 /\ w1 = w2 /\ n1 = n2.
Proof.
  revert w n1 n2. induction l as [|[m d] l IH]; intros w n1 n2 H1 H2.
  - inversion H1; inversion H2; subst. done.
  - inversion H1 as [|? ? ? ? wa ? ? na Ea Ha|? ? ? ? ea wa Ea];
      inversion H2 as [|? ? ? ? wb ? ? nb Eb Hb|? ? ? ? eb wb Eb]; subst;
      rewrite Ea in Eb; try discriminate.
    + injection Eb as <-. destruct (IH _ _ _ Ha Hb) as (-> & -> & ->). done.
    + injection Eb as <- <-. done.
Qed.

(** Every list of calls has a run, of at most as many calls as the list
    is long, and of exactly as many when it returns. *)
Lemma dispatched_total method l w :
  exists r w' n,
    dispatched method l w r w' n
    /\ n <= length l /\ (r = Ok tt -> n = length l)
    /\ (forall e, r = Raise e -> 1 <= n).
Proof.
  revert w. induction l as [|[m d] l IH]; intros w.
  - exists (Ok tt), w, 0. split; [constructor|]. by repeat split.
  - destruct (method m d w) as [[[]|e] w1] eqn:E.
    + destruct (IH w1) as (r & w' & n & Hrun & Hle & Hok & Hraise).
      exists r, w', (S n). split; [by econstructor|]. cbn.
      split; [lia|]. split; [intros Hr; rewrite (Hok Hr); done|]. intros; lia.
    + exists (Raise e), w1, 1. split; [by constructor|]. cbn.
      split; [lia|]. split; [done|]. intros; lia.
Qed.

(** The loop of [update] and [optimize] over the constituents and their
    pieces of the observations makes the run of calls with the datasets
    built from the pieces, and records the calls it makes. *)
Lemma for_each_dispatched
    (method : TrainableProbabilisticModel -> Dataset -> M World unit)
    (record_call : nat -> Dataset -> call) (points : TensorType)
    (models : list TrainableProbabilisticModel) (pieces : list TensorType)
    w r w' n :
  length models = length pieces ->
  dispatched method (zip models (mkDataset points <$> pieces)) w r w' n ->
  forall k log,
    for_each
      (fun '(i, (model, obs)) =>
         let d := mkDataset points obs in
         invoke (record_call i d) (method model d))
      (zip (seq k (length (zip models pieces))) (zip models pieces))
      {| world := w; call_log := log |}
    = (r,
       {| world := w';
          call_log :=
            log ++ take n (imap (fun i => record_call (k + i))
                                (mkDataset points <$> pieces)) |}).
Proof.
  revert pieces w n. induction models as [|m ms IH];
    intros [|o os] w n Hlen Hrun k log; try discriminate.
  - inversion Hrun; subst. cbn. by rewrite app_nil_r.
  - injection Hlen as Hlen. cbn [zip zip_with fmap list_fmap] in Hrun.
    cbn [zip zip_with length seq for_each].
    unfold bind at 1. unfold invoke at 1. cbv zeta. cbn [world call_log].
    inversion Hrun as [|m' d' rest' wa w1 r' wb n' E Hrest|m' d' rest' wa e w1 E];
      subst; rewrite E.
    + rewrite (IH os w1 n' Hlen Hrest (S k)).
      cbn [fmap list_fmap imap take]. rewrite <- app_assoc. cbn [app].
      rewrite Nat.add_0_r. do 5 f_equal.
      apply imap_ext. intros i d _. cbn. f_equal. lia.
    + cbn [fmap list_fmap imap take]. by rewrite Nat.add_0_r.
Qed.

(** Both loops of [ModelStack], at once: [method] is [update] or
    [optimize]. *)
Lemma dispatch_routes
    (method : TrainableProbabilisticModel -> Dataset -> M World unit)
    (record_call : nat -> Dataset -> call)
    (models : list TrainableProbabilisticModel) (sizes : list Z)
    (dataset : Dataset) s r w' n :
  length models = length sizes ->
  Forall (fun e => (0 <= e)%Z) sizes ->
  Z.of_nat <$> width (observations dataset) = Some (Zsum sizes) ->
  dispatched method (zip models (routed sizes dataset)) (world s) r w' n ->
  bind (tf_split (observations dataset) sizes (-1))
       (fun obs_list =>
          for_each
            (fun '(i, (model, obs)) =>
               let d := mkDataset (query_points dataset) obs in
               invoke (record_call i d) (method model d))
            (enumerate (zip models obs_list))) s
  = (r, {| world := w';
           call_log :=
             call_log s ++ take n (imap record_call (routed sizes dataset)) |}).
Proof.
  intros Hlen Hs W Hrun.
  unfold bind at 1. rewrite (tf_split_columns _ _ s Hs W).
  set (pieces := imap _ sizes).
  assert (Hrouted : routed sizes dataset
                    = mkDataset (query_points dataset) <$> pieces).
  { unfold routed, pieces. by rewrite fmap_imap. }
  rewrite Hrouted in Hrun |- *. unfold enumerate. destruct s as [w log].
  apply (for_each_dispatched method record_call (query_points dataset)
           models pieces w r w' n); [|exact Hrun].
  unfold pieces. by rewrite length_imap.
Qed.

(** C1, as the code has it. For a stack built from constituents with
    event sizes [E_1..E_N], none negative, and a dataset whose
    observations are [sum(E_i)] wide, [ModelStack.update] is the run of
    calls of [update] on the constituents in constructor order, the
    [i]-th with the dataset's own query points and the columns
    [[sum(E_<i), sum(E_<=i))] of its observations: each call starts in
    the world the one before has left, the run ends at the first call
    that raises, whose exception [ModelStack.update] raises, and the
    world the run has left is the one [ModelStack.update] leaves.  The
    [n] calls made are recorded in order, and when [ModelStack.update]
    returns they are [N], one to each constituent.  Likewise
    [ModelStack.optimize] with the constituents' [optimize]. *)
Theorem model_stack_routes_slices
    (first : TrainableProbabilisticModel * Z)
    (rest : list (TrainableProbabilisticModel * Z))
    (dataset : Dataset) (s : traced) :
  let stack := ModelStack.__init__ first rest in
  let sizes := ModelStack._event_sizes stack in
  let models := ModelStack._models stack in
  let slices := routed sizes dataset in
  Forall (fun e => (0 <= e)%Z) sizes ->
  Z.of_nat <$> width (observations dataset) = Some (Zsum sizes) ->
  (exists r w' n,
     ModelStack.update stack dataset s
     = (r, {| world := w';
              call_log := call_log s ++ take n (imap CallUpdate slices) |})
     /\ dispatched update (zip models slices) (world s) r w' n
     /\ n <= length models
     /\ (r = Ok tt -> n = length models))
  /\ (exists r w' n,
        ModelStack.optimize stack dataset s
        = (r, {| world := w';
                 call_log := call_log s ++ take n (imap CallOptimize slices) |})
        /\ dispatched optimize (zip models slices) (world s) r w' n
        /\ n <= length models
        /\ (r = Ok tt -> n = length models)).
Proof.
  intros stack sizes models slices Hs W.
  assert (Hmodels : length models = length sizes) by apply init_lengths.
  assert (Hlen : length (zip models slices) = length models).
  { unfold slices. rewrite length_zip_with, length_routed. lia. }
  split.
  - destruct (dispatched_total update (zip models slices) (world s))
      as (r & w' & n & Hrun & Hle & Hok & _).
    exists r, w', n. rewrite Hlen in Hle, Hok.
    split; [|by repeat split].
    apply (dispatch_routes update CallUpdate models sizes dataset s r w' n
             (init_lengths first rest) Hs W Hrun).
  - destruct (dispatched_total optimize (zip models slices) (world s))
      as (r & w' & n & Hrun & Hle & Hok & _).
    exists r, w', n. rewrite Hlen in Hle, Hok.
    split; [|by repeat split].
    apply (dispatch_routes optimize CallOptimize models sizes dataset s r w' n
             (init_lengths first rest) Hs W Hrun).
Qed.

(** C5, as the code has it. For a stack whose event sizes are not
    negative and a dataset whose observations are not as wide as the
    event sizes add up to, [ModelStack.update] and [ModelStack.optimize]
    raise the shape error of [tf.split] and leave the state as it was: no
    constituent has been called, and none has changed. *)
Theorem model_stack_rejects_width_mismatch
    (first : TrainableProbabilisticModel * Z)
    (rest : list (TrainableProbabilisticModel * Z))
    (dataset : Dataset) (s : traced) :
  let stack := ModelStack.__init__ first rest in
  let sizes := ModelStack._event_sizes stack in
  Forall (fun e => (0 <= e)%Z) sizes ->
  Z.of_nat <$> width (observations dataset) <> Some (Zsum sizes) ->
  ModelStack.update stack dataset s = (Raise InvalidArgumentError, s)
  /\ ModelStack.optimize stack dataset s = (Raise InvalidArgumentError, s).
Proof.
  intros stack sizes Hs W.
  pose proof (tf_split_mismatch (observations dataset) sizes s Hs W) as E.
  unfold ModelStack.update, ModelStack.optimize, bind. fold sizes.
  by rewrite E.
Qed.

(** When the run of calls raises, so does the stack, in the world the
    run has left: the constituents before the one that raised have been
    updated (optimized), those after it have not been called. *)
Theorem model_stack_dispatch_stops_at_raise
    (first : TrainableProbabilisticModel * Z)
    (rest : list (TrainableProbabilisticModel * Z))
    (dataset : Dataset) (s : traced) (e : exn) (w' : World) (n : nat) :
  let stack := ModelStack.__init__ first rest in
  let sizes := ModelStack._event_sizes stack in
  let models := ModelStack._models stack in
  let slices := routed sizes dataset in
  Forall (fun e => (0 <= e)%Z) sizes ->
  Z.of_nat <$> width (observations dataset) = Some (Zsum sizes) ->
  (dispatched update (zip models slices) (world s) (Raise e) w' n ->
   ModelStack.update stack dataset s
   = (Raise e,
      {| world := w';
         call_log := call_log s ++ take n (imap CallUpdate slices) |})
   /\ 1 <= n <= length models)
  /\ (dispatched optimize (zip models slices) (world s) (Raise e) w' n ->
      ModelStack.optimize stack dataset s
      = (Raise e,
         {| world := w';
            call_log := call_log s ++ take n (imap CallOptimize slices) |})
      /\ 1 <= n <= length models).
Proof.
  intros stack sizes models slices Hs W.
  assert (Hmodels : length models = length sizes) by apply init_lengths.
  assert (Hlen : length (zip models slices) = length models).
  { unfold slices. rewrite length_zip_with, length_routed. lia. }
  split; intros Hrun.
  - split.
    + apply (dispatch_routes update CallUpdate models sizes dataset s _ w' n
               (init_lengths first rest) Hs W Hrun).
    + destruct (dispatched_total update (zip models slices) (world s))
        as (r2 & w2 & n2 & Hrun2 & Hle & _ & Hraise).
      destruct (dispatched_unique _ _ _ _ _ _ _ _ _ Hrun Hrun2)
        as (<- & <- & <-).
      specialize (Hraise e eq_refl). lia.
  - split.
    + apply (dispatch_routes optimize CallOptimize models sizes dataset s _ w' n
               (init_lengths first rest) Hs W Hrun).
    + destruct (dispatched_total optimize (zip models slices) (world s))
        as (r2 & w2 & n2 & Hrun2 & Hle & _ & Hraise).
      destruct (dispatched_unique _ _ _ _ _ _ _ _ _ Hrun Hrun2)
        as (<- & <- & <-).
      specialize (Hraise e eq_refl). lia.
Qed.

End routing.
(** ** Concatenating and splitting along an axis *)

Section blocks_facts.
Context `{Domain}.

Lemma length_chunks c n (l : list Scalar) : length (chunks c n l) = c.
Proof. revert l. induction c as [|c IH]; intros l; cbn; [done | by rewrite IH]. Qed.

Lemma chunks_rows c n (l : list Scalar) :
  length l = c * n -> Forall (fun r => length r = n) (chunks c n l).
Proof.
  revert l. induction c as [|c IH]; intros l E; cbn; constructor.
  - rewrite length_take. lia.
  - apply IH. rewrite length_drop. lia.
Qed.

Lemma concat_chunks c n (l : list Scalar) :
  length l = c * n -> concat (chunks c n l) = l.
Proof.
  revert l. induction c as [|c IH]; intros l E; cbn.
  - symmetry. by apply nil_length_inv.
  - rewrite IH by (rewrite length_drop; lia). apply take_drop.
Qed.

Lemma chunks_concat n (rows : list (list Scalar)) :
  Forall (fun r => length r = n) rows ->
  chunks (length rows) n (concat rows) = rows.
Proof.
  induction 1 as [|r rows Hr _ IH]; cbn; [done|].
  rewrite take_app_length', drop_app_length' by done. by rewrite IH.
Qed.

Lemma length_concat_rows n (rows : list (list Scalar)) :
  Forall (fun r => length r = n) rows ->
  length (concat rows) = length rows * n.
Proof.
  induction 1 as [|r rows Hr _ IH]; cbn; [done|].
  rewrite length_app. lia.
Qed.

(** Rows glued side by side come apart again. *)
Lemma take_glued n (bs rs : list (list Scalar)) :
  length bs = length rs -> Forall (fun r => length r = n) bs ->
  map (take n) (zip_with app bs rs) = bs.
Proof.
  intros Hlen Hrows. revert rs Hlen.
  induction Hrows as [|b bs Hb _ IH]; intros [|r rs] Hlen;
    try discriminate; cbn; [done|].
  rewrite take_app_length' by done. f_equal. apply IH. by injection Hlen.
Qed.

Lemma drop_glued n (bs rs : list (list Scalar)) :
  length bs = length rs -> Forall (fun r => length r = n) bs ->
  map (drop n) (zip_with app bs rs) = rs.
Proof.
  intros Hlen Hrows. revert rs Hlen.
  induction Hrows as [|b bs Hb _ IH]; intros [|r rs] Hlen;
    try discriminate; cbn; [done|].
  rewrite drop_app_length' by done. f_equal. apply IH. by injection Hlen.
Qed.

Lemma glued_rows n m (bs rs : list (list Scalar)) :
  Forall (fun r => length r = n) bs -> Forall (fun r => length r = m) rs ->
  Forall (fun r => length r = n + m) (zip_with app bs rs).
Proof.
  intros Hbs. revert rs. induction Hbs as [|b bs Hb _ IH];
    intros rs Hrs; [constructor|].
  destruct Hrs as [|r rs Hr Hrs]; cbn; constructor.
  - rewrite length_app. lia.
  - by apply IH.
Qed.

(** The rows [tf.concat] builds from the blocks of its inputs: there
    are [outer] of them, as long as the inputs' blocks together, and
    [split_blocks] recovers the blocks of every input. *)
Lemma merged_blocks outer inner (sizes : list nat)
    (bss : list (list (list Scalar))) :
  Forall2 (fun bs e =>
             length bs = outer /\ Forall (fun r => length r = e * inner) bs)
          bss sizes ->
  let merged := foldr (zip_with app) (replicate outer []) bss in
  length merged = outer
  /\ Forall (fun r => length r = sum_list sizes * inner) merged
  /\ split_blocks inner sizes merged = bss.
Proof.
  induction 1 as [|bs e bss sizes [Hlen Hrows] _ IH]; cbn zeta.
  - cbn. rewrite length_replicate. split; [done|]. split; [|done].
    apply Forall_replicate. done.
  - cbn zeta in IH. destruct IH as (IHlen & IHrows & IHsplit).
    cbn [foldr split_blocks]. set (merged := foldr _ _ bss) in *.
    split; [rewrite length_zip_with; lia|]. split.
    + replace (sum_list (e :: sizes) * inner)
        with (e * inner + sum_list sizes * inner) by (cbn; lia).
      by apply glued_rows.
    + rewrite take_glued, drop_glued by (done || congruence).
      by rewrite IHsplit.
Qed.

End blocks_facts.

Section concat_facts.
Context `{Domain}.

Lemma num_elements_app l1 l2 :
  num_elements (l1 ++ l2) = num_elements l1 * num_elements l2.
Proof.
  unfold num_elements. induction l1 as [|d l1 IH]; cbn; [lia|].
  rewrite IH. lia.
Qed.

(** A shape seen from the axis after [lead]. *)
Lemma outer_size_middle lead e trail :
  outer_size (lead ++ e :: trail) (length lead) = num_elements lead.
Proof. unfold outer_size. by rewrite take_app_length. Qed.

Lemma inner_size_middle lead e trail :
  inner_size (lead ++ e :: trail) (length lead) = num_elements trail.
Proof.
  unfold inner_size. rewrite drop_app_ge by lia.
  by replace (S (length lead) - length lead) with 1 by lia.
Qed.

Lemma axis_dim_middle lead e trail :
  axis_dim (lead ++ e :: trail) (length lead) = e.
Proof. unfold axis_dim. by rewrite list_lookup_middle. Qed.

Lemma insert_middle lead e trail (x : nat) :
  <[length lead := x]> (lead ++ e :: trail) = lead ++ x :: trail.
Proof.
  replace (length lead) with (length lead + 0) at 1 by lia.
  by rewrite insert_app_r.
Qed.

Lemma normalize_axis_from_end lead (e : nat) trail :
  normalize_axis (length (lead ++ e :: trail)) (- Z.of_nat (S (length trail)))
  = Some (length lead).
Proof.
  unfold normalize_axis. rewrite length_app. cbn [length].
  destruct (Z.leb_spec 0 (- Z.of_nat (S (length trail)))); [lia|].
  destruct (Z.leb_spec (- Z.of_nat (length lead + S (length trail)))
              (- Z.of_nat (S (length trail)))); [|lia].
  f_equal. lia.
Qed.

Lemma num_elements_middle lead e trail :
  num_elements (lead ++ e :: trail)
  = num_elements lead * (e * num_elements trail).
Proof. by rewrite num_elements_app. Qed.

(** The blocks of a well-formed tensor. *)
Lemma blocks_middle lead e trail (t : TensorType) :
  well_formed t -> shape t = lead ++ e :: trail ->
  length (blocks (length lead) t) = num_elements lead
  /\ Forall (fun r => length r = e * num_elements trail)
            (blocks (length lead) t)
  /\ concat (blocks (length lead) t) = entries t.
Proof.
  unfold well_formed, blocks. intros Hwf Ht.
  rewrite Ht, num_elements_middle in Hwf. rewrite Ht.
  rewrite outer_size_middle, inner_size_middle, axis_dim_middle.
  split; [apply length_chunks|]. split.
  - by apply chunks_rows.
  - by apply concat_chunks.
Qed.


Lemma glue_nothing (bs : list (list Scalar)) :
  zip_with app bs (replicate (length bs) []) = bs.
Proof.
  induction bs as [|b bs IH]; cbn; [done|]. by rewrite app_nil_r, IH.
Qed.

(** A shape with at least [S k] axes, seen from the axis [S k] from the
    end. *)
Lemma shape_from_end (dims : list nat) k :
  S k <= length dims ->
  exists lead e trail, dims = lead ++ e :: trail /\ length trail = k.
Proof.
  intros Hk.
  destruct (drop (length dims - S k) dims) as [|e trail] eqn:Ed.
  { apply (f_equal length) in Ed. rewrite length_drop in Ed. cbn in Ed. lia. }
  exists (take (length dims - S k) dims), e, trail. split.
  - by rewrite <- Ed, take_drop.
  - apply (f_equal length) in Ed. rewrite length_drop in Ed. cbn in Ed. lia.
Qed.

(** Concatenating one well-formed tensor along an axis it has gives the
    tensor: [tf.concat] loses nothing by answering a list of one with
    its element. *)
Lemma concat_along_singleton {St} (t : TensorType) k (s : St) :
  well_formed t -> S k <= length (shape t) ->
  concat_along [t] (- Z.of_nat (S k)) s = (Ok t, s).
Proof.
  intros Hwf Hk.
  destruct (shape_from_end _ k Hk) as (lead & e & trail & Ht & <-).
  destruct (blocks_middle lead e trail t Hwf Ht) as (Hlen & _ & Hcat).
  unfold concat_along. cbn [forallb map]. unfold same_shape_except.
  rewrite Ht, normalize_axis_from_end.
  rewrite bool_decide_eq_true_2 by done. cbn [andb].
  rewrite outer_size_middle, <- Hlen. cbn [foldr].
  rewrite glue_nothing, Hcat, axis_dim_middle. cbn [sum_list_with id].
  rewrite Nat.add_0_r, insert_middle, <- Ht. by destruct t.
Qed.

Lemma tf_concat_along {St} (ts : list TensorType) k (s : St) :
  Forall (fun t => well_formed t /\ S k <= length (shape t)) ts ->
  tf_concat ts (- Z.of_nat (S k)) s = concat_along ts (- Z.of_nat (S k)) s.
Proof.
  intros Hts. destruct ts as [|t [|t' ts]]; try reflexivity.
  apply Forall_singleton in Hts as [Hwf Hk].
  symmetry. by apply concat_along_singleton.
Qed.

(** Tensors of shapes [lead ++ [e_i] ++ trail], concatenated along the
    axis of the [e_i] and split again by the [e_i], come back as they
    were; the concatenation has extent [sum(e_i)] on that axis. *)
Lemma concat_split_roundtrip (lead trail : list nat)
    (ts : list TensorType) (sizes : list nat) (axis : Z) :
  ts <> [] ->
  axis = (- Z.of_nat (S (length trail)))%Z ->
  Forall2 (fun t e => well_formed t /\ shape t = lead ++ e :: trail)
          ts sizes ->
  exists T,
    (forall (St : Type) (s : St), tf_concat ts axis s = (Ok T, s))
    /\ shape T = lead ++ sum_list sizes :: trail
    /\ well_formed T
    /\ forall (St' : Type) (s' : St'),
         tf_split T (Z.of_nat <$> sizes) axis s' = (Ok ts, s').
Proof.
  intros Hne -> Hts.
  assert (Haxis : Forall (fun t => well_formed t
                            /\ S (length trail) <= length (shape t)) ts).
  { clear Hne. induction Hts as [|t e ts sizes [Hwf Ht] _ IH]; constructor;
      [|exact IH]. split; [done|]. rewrite Ht, length_app. cbn. lia. }
  set (a := length lead). set (O := num_elements lead).
  set (I := num_elements trail).
  assert (Hsame : forall e0,
    forallb (fun t => same_shape_except a (lead ++ e0 :: trail) (shape t)) ts
    = true).
  { intros e0. clear Hne Haxis. induction Hts as [|t e ts sizes [_ Ht] _ IH];
      [done|]. cbn [forallb]. rewrite IH, andb_true_r.
    unfold same_shape_except. apply bool_decide_eq_true_2.
    rewrite Ht. unfold a. by rewrite !insert_middle. }
  assert (Hsum : sum_list (map (fun t => axis_dim (shape t) a) ts)
                 = sum_list sizes).
  { clear Hne Hsame Haxis. induction Hts as [|t e ts sizes [_ Ht] _ IH];
      [done|]. cbn. rewrite IH, Ht. unfold a. by rewrite axis_dim_middle. }
  assert (Hblocks :
    Forall2 (fun bs e => length bs = O /\ Forall (fun r => length r = e * I) bs)
            (map (blocks a) ts) sizes).
  { apply Forall2_fmap_l. eapply Forall2_impl; [exact Hts|].
    intros t e [Hwf Ht]. cbn.
    destruct (blocks_middle lead e trail t Hwf Ht) as (? & ? & _). done. }
  destruct (merged_blocks O I sizes _ Hblocks) as (Mlen & Mrows & Msplit).
  set (merged := foldr _ _ _) in *.
  destruct ts as [|t0 ts']; [done|].
  pose proof Hts as Hts0.
  apply Forall2_cons_inv_l in Hts0 as (e0 & sizes' & [Hwf0 Ht0] & _ & ->).
  assert (Econcat : forall (St : Type) (s : St),
    tf_concat (t0 :: ts') (- Z.of_nat (S (length trail))) s
    = (Ok {| shape := lead ++ sum_list (e0 :: sizes') :: trail;
             entries := concat merged |}, s)).
  { intros St s. rewrite (tf_concat_along _ _ _ Haxis).
    unfold concat_along. rewrite Ht0, normalize_axis_from_end. fold a.
    rewrite Hsame, Hsum, outer_size_middle. fold O merged.
    unfold a. by rewrite insert_middle. }
  eexists. split; [exact Econcat|]. cbn [shape entries].
  split; [done|]. split.
  { unfold well_formed. cbn [shape entries].
    rewrite (length_concat_rows _ _ Mrows), Mlen, num_elements_middle.
    done. }
  intros St' s'. unfold tf_split. cbn [shape].
  rewrite normalize_axis_from_end, axis_dim_middle.
  rewrite (resolve_sizes_nonneg _ _ (of_nat_nonneg _)).
  rewrite bool_decide_eq_true_2 by apply Zsum_of_nat.
  rewrite to_nat_of_nat. unfold split_along, blocks. cbn [shape entries].
  rewrite outer_size_middle, inner_size_middle, axis_dim_middle.
  fold O I. rewrite <- Mlen at 1. rewrite (chunks_concat _ _ Mrows).
  rewrite Msplit. unfold ret. do 2 f_equal.
  generalize (sum_list (e0 :: sizes')). intros total.
  clear - Hts. induction Hts as [|t e ts sizes [Hwf Ht] _ IH]; [done|].
  cbn [map zip_with]. f_equal; [|exact IH].
  destruct (blocks_middle lead e trail t Hwf Ht) as (_ & _ & Hcat).
  unfold a. rewrite insert_middle, Hcat, <- Ht. by destruct t.
Qed.

Lemma rows_of_nothing (rows : list (list Scalar)) :
  Forall (fun r => length r = 0) rows -> rows = replicate (length rows) [].
Proof.
  induction 1 as [|r rows Hr _ IH]; cbn; [done|].
  apply nil_length_inv in Hr as ->. by rewrite <- IH.
Qed.

Lemma glue_take_drop n (rows : list (list Scalar)) :
  zip_with app (map (take n) rows) (map (drop n) rows) = rows.
Proof.
  induction rows as [|r rows IH]; cbn; [done|]. by rewrite take_drop, IH.
Qed.

(** The pieces [split_blocks] cuts from rows of the right length are as
    long as the sizes say, and glued side by side they are the rows. *)
Lemma split_blocks_partition inner (sizes : list nat)
    (rows : list (list Scalar)) :
  Forall (fun r => length r = sum_list sizes * inner) rows ->
  Forall2 (fun bs e =>
             length bs = length rows
             /\ Forall (fun r => length r = e * inner) bs)
          (split_blocks inner sizes rows) sizes
  /\ foldr (zip_with app) (replicate (length rows) [])
           (split_blocks inner sizes rows) = rows.
Proof.
  revert rows. induction sizes as [|e es IH]; intros rows Hrows.
  - split; [constructor|]. cbn. symmetry. by apply rows_of_nothing.
  - destruct (IH (map (drop (e * inner)) rows)) as [IH1 IH2].
    { apply Forall_fmap. eapply Forall_impl; [exact Hrows|].
      intros r Hr. cbn. rewrite length_drop, Hr. cbn. lia. }
    rewrite length_map in IH1, IH2.
    cbn [split_blocks foldr]. split.
    + constructor; [|exact IH1]. split; [by rewrite length_map|].
      apply Forall_fmap. eapply Forall_impl; [exact Hrows|].
      intros r Hr. cbn. rewrite length_take, Hr. cbn. lia.
    + rewrite IH2. apply glue_take_drop.
Qed.

(** The tensors [tf.split] makes of the pieces of the blocks. *)
Lemma pieces_of_blocks (lead trail dims : list nat) (w : nat)
    (sizes : list nat) (bss : list (list (list Scalar))) :
  dims = lead ++ w :: trail ->
  Forall2 (fun bs e =>
             length bs = num_elements lead
             /\ Forall (fun r => length r = e * num_elements trail) bs)
          bss sizes ->
  let mk := fun (e : nat) (piece : list (list Scalar)) =>
              {| shape := <[length lead := e]> dims; entries := concat piece |} in
  Forall2 (fun p e => well_formed p /\ shape p = lead ++ e :: trail)
          (zip_with mk sizes bss) sizes
  /\ map (blocks (length lead)) (zip_with mk sizes bss) = bss.
Proof.
  intros -> Hparts mk.
  induction Hparts as [|bs e bss es [Hbs Hbrows] _ [IH1 IH2]]; [done|].
  cbn [zip_with map].
  assert (Hshape : shape (mk e bs) = lead ++ e :: trail)
    by apply insert_middle.
  split.
  - constructor; [|exact IH1]. split; [|done].
    unfold well_formed. rewrite Hshape, num_elements_middle. cbn [entries mk].
    by rewrite (length_concat_rows _ _ Hbrows), Hbs.
  - rewrite IH2. f_equal.
    unfold blocks. rewrite Hshape, outer_size_middle, inner_size_middle,
      axis_dim_middle. cbn [entries mk].
    rewrite <- Hbs. by apply chunks_concat.
Qed.

(** A well-formed tensor split along an axis into pieces of sizes that
    add up to its extent: the pieces are well-formed, have the sizes'
    extents on that axis, and concatenated in order they are the
    tensor. *)
Lemma tf_split_concat (lead trail : list nat) (t : TensorType)
    (sizes : list nat) (axis : Z) :
  sizes <> [] ->
  axis = (- Z.of_nat (S (length trail)))%Z ->
  well_formed t ->
  shape t = lead ++ sum_list sizes :: trail ->
  exists pieces,
    (forall (St : Type) (s : St),
       tf_split t (Z.of_nat <$> sizes) axis s = (Ok pieces, s))
    /\ Forall2 (fun p e => well_formed p /\ shape p = lead ++ e :: trail)
               pieces sizes
    /\ (forall (St : Type) (s : St), tf_concat pieces axis s = (Ok t, s)).
Proof.
  intros Hne -> Hwf Ht.
  destruct (blocks_middle lead _ trail t Hwf Ht) as (Hlen & Hrows & Hcat).
  destruct (split_blocks_partition (num_elements trail) sizes
              (blocks (length lead) t) Hrows) as [Hparts Hglue].
  rewrite Hlen in Hparts, Hglue.
  destruct (pieces_of_blocks lead trail (shape t) _ sizes _ Ht Hparts)
    as [Hpieces Hblocks].
  set (pieces := zip_with _ sizes _) in *.
  assert (Hsplit : forall (St : Type) (s : St),
            tf_split t (Z.of_nat <$> sizes) (- Z.of_nat (S (length trail))) s
            = (Ok pieces, s)).
  { intros St s. unfold tf_split.
    assert (normalize_axis (length (shape t)) (- Z.of_nat (S (length trail)))
            = Some (length lead)) as ->
      by (rewrite Ht; apply normalize_axis_from_end).
    assert (axis_dim (shape t) (length lead) = sum_list sizes) as ->
      by (rewrite Ht; apply axis_dim_middle).
    rewrite (resolve_sizes_nonneg _ _ (of_nat_nonneg _)).
    rewrite bool_decide_eq_true_2 by apply Zsum_of_nat.
    rewrite to_nat_of_nat. unfold split_along.
    assert (inner_size (shape t) (length lead) = num_elements trail) as ->
      by (rewrite Ht; apply inner_size_middle).
    done. }
  exists pieces. split; [exact Hsplit|]. split; [exact Hpieces|].
  intros St s.
  assert (Haxis : Forall (fun p => well_formed p
                            /\ S (length trail) <= length (shape p)) pieces).
  { clear - Hpieces. induction Hpieces as [|p e ps es [Hwf Hp] _ IH];
      constructor; [|exact IH]. split; [done|].
    rewrite Hp, length_app. cbn. lia. }
  rewrite (tf_concat_along _ _ _ Haxis).
  destruct pieces as [|p0 ps] eqn:Epieces.
  { apply Forall2_nil_inv_l in Hpieces. done. }
  pose proof Hpieces as Hp0.
  apply Forall2_cons_inv_l in Hp0 as (e0 & es & [_ Hp0] & Hps & Ees).
  assert (Hsame :
    forallb (fun p => same_shape_except (length lead) (shape p0) (shape p))
            (p0 :: ps) = true).
  { rewrite Hp0. clear - Hpieces.
    induction Hpieces as [|p e ps' es' [_ Hp] _ IH]; [done|].
    cbn [forallb]. rewrite IH, andb_true_r.
    unfold same_shape_except. apply bool_decide_eq_true_2.
    by rewrite Hp, !insert_middle. }
  assert (Hsum : sum_list (map (fun p => axis_dim (shape p) (length lead))
                               (p0 :: ps)) = sum_list sizes).
  { clear - Hpieces. induction Hpieces as [|p e ps' es' [_ Hp] _ IH]; [done|].
    cbn. rewrite IH, Hp. by rewrite axis_dim_middle. }
  unfold concat_along.
  assert (normalize_axis (length (shape p0)) (- Z.of_nat (S (length trail)))
          = Some (length lead)) as ->
    by (rewrite Hp0; apply normalize_axis_from_end).
  rewrite Hsame, Hsum, Hblocks. rewrite Hp0, outer_size_middle, Hglue, Hcat.
  rewrite insert_middle, <- Ht. by destruct t.
Qed.

End concat_facts.

(** ** Predictions of a [ModelStack] *)

Section prediction.
Context `{Domain}.

(** The comprehension over the constituents is the run that asks them
    one after the other, and it records the calls made. *)
Lemma comprehension_collected {Y}
    (ask : TrainableProbabilisticModel -> M World Y) (record_call : nat -> call)
    (models : list TrainableProbabilisticModel) w r w' n :
  collected ask models w r w' n ->
  forall k log,
    list_comprehension
      (fun '(i, model) => invoke (record_call i) (ask model))
      (zip (seq k (length models)) models) {| world := w; call_log := log |}
    = (r, {| world := w'; call_log := log ++ map record_call (seq k n) |}).
Proof.
  induction 1 as [w|m rest w y w1 ys w' n E _ IH|m rest w y w1 e w' n E _ IH
                  |m rest w e w1 E]; intros k log.
  - cbn. by rewrite app_nil_r.
  - cbn [length seq zip zip_with list_comprehension].
    unfold bind at 1. unfold invoke at 1. cbn [world call_log]. rewrite E.
    unfold bind at 1. rewrite (IH (S k)). cbn [ret map seq].
    by rewrite <- app_assoc.
  - cbn [length seq zip zip_with list_comprehension].
    unfold bind at 1. unfold invoke at 1. cbn [world call_log]. rewrite E.
    unfold bind at 1. rewrite (IH (S k)). cbn [map seq].
    by rewrite <- app_assoc.
  - cbn [length seq zip zip_with list_comprehension].
    unfold bind at 1. unfold invoke at 1. cbn [world call_log]. by rewrite E.
Qed.

(** A run that returns has asked every constituent; one that raises has
    asked at least one, and no more than there are. *)
Lemma collected_calls {Y} (ask : TrainableProbabilisticModel -> M World Y)
    (models : list TrainableProbabilisticModel) w r w' n :
  collected ask models w r w' n ->
  match r with
  | Ok outs => n = length models /\ length outs = length models
  | Raise _ => 1 <= n <= length models
  end.
Proof.
  induction 1 as [w|m rest w y w1 ys w' n E _ IH|m rest w y w1 e w' n E _ IH
                  |m rest w e w1 E]; cbn in *; lia.
Qed.

Lemma width_snoc (t : TensorType) lead e :
  shape t = lead ++ [e] -> width t = Some e.
Proof. unfold width. intros ->. apply last_snoc. Qed.

Lemma init_models_nonempty first rest :
  ModelStack._models (ModelStack.__init__ first rest) <> [].
Proof. done. Qed.

Lemma collected_nonempty {Y} (ask : TrainableProbabilisticModel -> M World Y)
    first rest w (outs : list Y) w' n :
  collected ask (ModelStack._models (ModelStack.__init__ first rest)) w
            (Ok outs) w' n ->
  outs <> [].
Proof.
  intros Hrun ->. apply collected_calls in Hrun as [_ Hlen]. discriminate.
Qed.

(** C2. Take a stack and a batch of points at which its constituents,
    asked one after the other in constructor order from the current
    world, return means and variances of shape [lead + [E_i]], the [E_i]
    being the event sizes of the constituents.  Then
    [ModelStack.predict(points)] asks each constituent once, in that
    order, leaves the world they have left, and returns a mean and a
    variance whose last axis has extent [sum(E_i)] and which, split along
    that axis into pieces of sizes [E_1..E_n], are the constituents' means
    and variances in constructor order.  [predict] does not read the
    sizes declared at [__init__]: the [E_i] are the extents of what the
    constituents return, and when the declared sizes are these, the
    pieces are those that the declared sizes cut. *)
Theorem model_stack_predict_concatenates
    (first : TrainableProbabilisticModel * Z)
    (rest : list (TrainableProbabilisticModel * Z))
    (points : TensorType) (lead : list nat) (event_sizes : list nat)
    (outs : list (TensorType * TensorType)) (s : traced)
    (w' : World) (n : nat) :
  let stack := ModelStack.__init__ first rest in
  let models := ModelStack._models stack in
  collected (fun m => predict m points) models (world s) (Ok outs) w' n ->
  Forall2 (fun out e =>
             (well_formed out.1 /\ shape out.1 = lead ++ [e])
             /\ (well_formed out.2 /\ shape out.2 = lead ++ [e]))
          outs event_sizes ->
  exists mean var,
    ModelStack.predict stack points s
    = (Ok (mean, var),
       {| world := w';
          call_log :=
            call_log s
            ++ map (fun i => CallPredict i points) (seq 0 (length models)) |})
    /\ width mean = Some (sum_list event_sizes)
    /\ width var = Some (sum_list event_sizes)
    /\ (forall (St : Type) (st : St),
          tf_split mean (Z.of_nat <$> event_sizes) (-1) st
          = (Ok (map fst outs), st))
    /\ (forall (St : Type) (st : St),
          tf_split var (Z.of_nat <$> event_sizes) (-1) st
          = (Ok (map snd outs), st))
    /\ (ModelStack._event_sizes stack = Z.of_nat <$> event_sizes ->
        forall (St : Type) (st : St),
          tf_split mean (ModelStack._event_sizes stack) (-1) st
          = (Ok (map fst outs), st)
          /\ tf_split var (ModelStack._event_sizes stack) (-1) st
             = (Ok (map snd outs), st)).
Proof.
  intros stack models Hrun Hshapes.
  destruct s as [w log]. cbn [world call_log] in *.
  pose proof (collected_nonempty _ _ _ _ _ _ _ Hrun) as Hne.
  pose proof (collected_calls _ _ _ _ _ _ Hrun) as [-> _].
  destruct (concat_split_roundtrip lead [] (map fst outs) event_sizes (-1))
    as (mean & Emean & Smean & _ & Rmean).
  { by destruct outs. } { done. }
  { apply Forall2_fmap_l. eapply Forall2_impl; [exact Hshapes|].
    intros out e [Hm _]. exact Hm. }
  destruct (concat_split_roundtrip lead [] (map snd outs) event_sizes (-1))
    as (var & Evar & Svar & _ & Rvar).
  { by destruct outs. } { done. }
  { apply Forall2_fmap_l. eapply Forall2_impl; [exact Hshapes|].
    intros out e [_ Hv]. exact Hv. }
  exists mean, var. split.
  { unfold ModelStack.predict, enumerate. fold models.
    unfold bind at 1.
    rewrite (comprehension_collected _ (fun i => CallPredict i points)
               _ _ _ _ _ Hrun 0 log).
    unfold bind at 1. rewrite Emean. unfold bind at 1. by rewrite Evar. }
  split; [by apply (width_snoc _ lead)|].
  split; [by apply (width_snoc _ lead)|].
  split; [exact Rmean|]. split; [exact Rvar|].
  intros Hdeclared St st. rewrite Hdeclared. split; [apply Rmean | apply Rvar].
Qed.

(** C6, as the code has it. Take a stack and a batch of [B] points at
    which its constituents, asked one after the other in constructor
    order from the current world, return means of shape
    [lead + [B, E_i]] and covariances of shape [lead + [E_i, B, B]].
    Then [ModelStack.predict_joint(points)] asks each constituent once,
    in that order, at the whole batch, and leaves the world they have
    left; the means are concatenated along the last axis and the
    covariances along the third axis from the end, the event axis they
    already have, so that the covariance returned has shape
    [lead + [sum(E_i), B, B]], the rank of each constituent's, and splits
    along that axis into the constituents' covariances in constructor
    order. *)
Theorem model_stack_predict_joint_concatenates
    (first : TrainableProbabilisticModel * Z)
    (rest : list (TrainableProbabilisticModel * Z))
    (points : TensorType) (lead : list nat) (B : nat)
    (event_sizes : list nat)
    (outs : list (TensorType * TensorType)) (s : traced)
    (w' : World) (n : nat) :
  let stack := ModelStack.__init__ first rest in
  let models := ModelStack._models stack in
  collected (fun m => predict_joint m points) models (world s) (Ok outs) w' n ->
  Forall2 (fun out e =>
             (well_formed out.1 /\ shape out.1 = (lead ++ [B]) ++ [e])
             /\ (well_formed out.2 /\ shape out.2 = lead ++ e :: [B; B]))
          outs event_sizes ->
  exists mean cov,
    ModelStack.predict_joint stack points s
    = (Ok (mean, cov),
       {| world := w';
          call_log :=
            call_log s
            ++ map (fun i => CallPredictJoint i points)
                   (seq 0 (length models)) |})
    /\ shape mean = lead ++ [B; sum_list event_sizes]
    /\ shape cov = lead ++ [sum_list event_sizes; B; B]
    /\ (forall (St : Type) (st : St),
          tf_concat (map fst outs) (-1) st = (Ok mean, st)
          /\ tf_concat (map snd outs) (-3) st = (Ok cov, st))
    /\ (forall (St : Type) (st : St),
          tf_split mean (Z.of_nat <$> event_sizes) (-1) st
          = (Ok (map fst outs), st)
          /\ tf_split cov (Z.of_nat <$> event_sizes) (-3) st
             = (Ok (map snd outs), st)).
Proof.
  intros stack models Hrun Hshapes.
  destruct s as [w log]. cbn [world call_log] in *.
  pose proof (collected_nonempty _ _ _ _ _ _ _ Hrun) as Hne.
  pose proof (collected_calls _ _ _ _ _ _ Hrun) as [-> _].
  assert (Hmeans : Forall2 (fun t e => well_formed t
                              /\ shape t = (lead ++ [B]) ++ e :: [])
                           (map fst outs) event_sizes).
  { apply Forall2_fmap_l. eapply Forall2_impl; [exact Hshapes|].
    intros out e [Hm _]. exact Hm. }
  assert (Hcovs : Forall2 (fun t e => well_formed t
                             /\ shape t = lead ++ e :: [B; B])
                          (map snd outs) event_sizes).
  { apply Forall2_fmap_l. eapply Forall2_impl; [exact Hshapes|].
    intros out e [_ Hc]. exact Hc. }
  assert (Hne1 : map fst outs <> []) by by destruct outs.
  assert (Hne2 : map snd outs <> []) by by destruct outs.
  destruct (concat_split_roundtrip (lead ++ [B]) [] _ event_sizes (-1) Hne1
              eq_refl Hmeans) as (mean & Emean & Smean & _ & Rmean).
  destruct (concat_split_roundtrip lead [B; B] _ event_sizes (-3) Hne2
              eq_refl Hcovs) as (cov & Ecov & Scov & _ & Rcov).
  exists mean, cov. split.
  { unfold ModelStack.predict_joint, enumerate. fold models.
    unfold bind at 1.
    rewrite (comprehension_collected _ (fun i => CallPredictJoint i points)
               _ _ _ _ _ Hrun 0 log).
    unfold bind at 1. rewrite Emean. unfold bind at 1. by rewrite Ecov. }
  split; [by rewrite Smean, <- app_assoc|]. split; [done|]. split.
  - intros St st. split; [apply Emean | apply Ecov].
  - intros St st. split; [apply Rmean | apply Rcov].
Qed.

(** [ModelStack.sample]: take a stack, points and a number of samples
    for which its constituents, asked one after the other in constructor
    order from the current world, return samples of shape
    [lead + [num_samples, E_i]]; a sampler may read and change the world
    (a seed, say).  Then each constituent is asked once, in that order,
    with the same points and the same number of samples, the world is the
    one they have left, and the samples returned have shape
    [lead + [num_samples, sum(E_i)]] and split along the last axis into
    the constituents' samples. *)
Theorem model_stack_sample_concatenates
    (first : TrainableProbabilisticModel * Z)
    (rest : list (TrainableProbabilisticModel * Z))
    (points : TensorType) (num_samples : nat) (lead : list nat)
    (event_sizes : list nat) (outs : list TensorType) (s : traced)
    (w' : World) (n : nat) :
  let stack := ModelStack.__init__ first rest in
  let models := ModelStack._models stack in
  collected (fun m => sample m points num_samples) models (world s)
            (Ok outs) w' n ->
  Forall2 (fun out e =>
             well_formed out /\ shape out = (lead ++ [num_samples]) ++ [e])
          outs event_sizes ->
  exists samples,
    ModelStack.sample stack points num_samples s
    = (Ok samples,
       {| world := w';
          call_log :=
            call_log s
            ++ map (fun i => CallSample i points num_samples)
                   (seq 0 (length models)) |})
    /\ shape samples = lead ++ [num_samples; sum_list event_sizes]
    /\ (forall (St : Type) (st : St),
          tf_split samples (Z.of_nat <$> event_sizes) (-1) st = (Ok outs, st)).
Proof.
  intros stack models Hrun Hshapes.
  destruct s as [w log]. cbn [world call_log] in *.
  pose proof (collected_nonempty _ _ _ _ _ _ _ Hrun) as Hne.
  pose proof (collected_calls _ _ _ _ _ _ Hrun) as [-> _].
  destruct (concat_split_roundtrip (lead ++ [num_samples]) [] outs event_sizes
              (-1) Hne eq_refl Hshapes)
    as (samples & Econcat & Hshape & _ & Hsplit).
  exists samples. split.
  { unfold ModelStack.sample, enumerate. fold models.
    unfold bind at 1.
    rewrite (comprehension_collected _
               (fun i => CallSample i points num_samples) _ _ _ _ _ Hrun 0 log).
    apply Econcat. }
  split; [by rewrite Hshape, <- app_assoc | exact Hsplit].
Qed.

(** A stack of one model is transparent: whatever event size was
    declared for it, [predict], [predict_joint] and [sample] call the
    model once and end as the call ended: with what it returned, of
    whatever shape, or with what it raised, in the world it has left. *)
Theorem single_model_stack_is_transparent
    (m : TrainableProbabilisticModel) (e : Z) (points : TensorType)
    (num_samples : nat) (s : traced) :
  let stack := ModelStack.__init__ (m, e) [] in
  ModelStack.predict stack points s
  = (let '(r, w') := predict m points (world s) in
     (r, {| world := w'; call_log := call_log s ++ [CallPredict 0 points] |}))
  /\ ModelStack.predict_joint stack points s
     = (let '(r, w') := predict_joint m points (world s) in
        (r, {| world := w';
               call_log := call_log s ++ [CallPredictJoint 0 points] |}))
  /\ ModelStack.sample stack points num_samples s
     = (let '(r, w') := sample m points num_samples (world s) in
        (r, {| world := w';
               call_log := call_log s ++ [CallSample 0 points num_samples] |})).
Proof.
  cbv zeta. split; [|split].
  - unfold ModelStack.predict. cbn [ModelStack._models ModelStack.__init__ map
      fst enumerate length seq zip zip_with list_comprehension].
    unfold bind at 1. unfold bind at 1. unfold invoke.
    by destruct (predict m points (world s)) as [[[mean var]|x] w'].
  - unfold ModelStack.predict_joint. cbn [ModelStack._models
      ModelStack.__init__ map fst enumerate length seq zip zip_with
      list_comprehension].
    unfold bind at 1. unfold bind at 1. unfold invoke.
    by destruct (predict_joint m points (world s)) as [[[mean cov]|x] w'].
  - unfold ModelStack.sample. cbn [ModelStack._models ModelStack.__init__ map
      fst enumerate length seq zip zip_with list_comprehension].
    unfold bind at 1. unfold bind at 1. unfold invoke.
    by destruct (sample m points num_samples (world s)) as [[samples|x] w'].
Qed.

(** When the run that asks the constituents one after the other from
    the current world ends with the [n]-th call raising, [predict]
    ([predict_joint], [sample]) raises what that call raised, in the
    world it has left, after asking the first [n] constituents and no
    other. *)
Theorem model_stack_prediction_stops_at_raise
    (first : TrainableProbabilisticModel * Z)
    (rest : list (TrainableProbabilisticModel * Z))
    (points : TensorType) (num_samples : nat)
    (e : exn) (s : traced) (w' : World) (n : nat) :
  let stack := ModelStack.__init__ first rest in
  let models := ModelStack._models stack in
  (collected (fun m => predict m points) models (world s) (Raise e) w' n ->
   ModelStack.predict stack points s
   = (Raise e,
      {| world := w';
         call_log :=
           call_log s ++ map (fun i => CallPredict i points) (seq 0 n) |})
   /\ 1 <= n <= length models)
  /\ (collected (fun m => predict_joint m points) models (world s)
                (Raise e) w' n ->
      ModelStack.predict_joint stack points s
      = (Raise e,
         {| world := w';
            call_log :=
              call_log s ++ map (fun i => CallPredictJoint i points) (seq 0 n) |})
      /\ 1 <= n <= length models)
  /\ (collected (fun m => sample m points num_samples) models (world s)
                (Raise e) w' n ->
      ModelStack.sample stack points num_samples s
      = (Raise e,
         {| world := w';
            call_log :=
              call_log s
              ++ map (fun i => CallSample i points num_samples) (seq 0 n) |})
      /\ 1 <= n <= length models).
Proof.
  intros stack models. destruct s as [w log]. cbn [world call_log].
  split; [|split]; intros Hrun;
    (split; [|exact (collected_calls _ _ _ _ _ _ Hrun)]).
  - unfold ModelStack.predict, enumerate. fold models. unfold bind at 1.
    by rewrite (comprehension_collected _ (fun i => CallPredict i points)
                  _ _ _ _ _ Hrun 0 log).
  - unfold ModelStack.predict_joint, enumerate. fold models. unfold bind at 1.
    by rewrite (comprehension_collected _ (fun i => CallPredictJoint i points)
                  _ _ _ _ _ Hrun 0 log).
  - unfold ModelStack.sample, enumerate. fold models. unfold bind at 1.
    by rewrite (comprehension_collected _
                  (fun i => CallSample i points num_samples)
                  _ _ _ _ _ Hrun 0 log).
Qed.

End prediction.

Section partition.
Context `{Domain}.

Lemma of_nat_to_nat (sizes : list Z) :
  Forall (fun e => (0 <= e)%Z) sizes ->
  Z.of_nat <$> (Z.to_nat <$> sizes) = sizes.
Proof.
  induction 1 as [|e l He _ IH]; [done|].
  rewrite !fmap_cons, IH. f_equal. lia.
Qed.

(** [ModelStack.update] loses and repeats no column: for event sizes
    that are not negative and well-formed observations [sum(E_i)] wide,
    [ModelStack.update] is the run of the constituents' [update] on
    datasets that all carry the original query points, have well-formed
    observations of widths [E_1..E_N], and whose observations,
    concatenated in order along the last axis, are the original
    observations. *)
Theorem model_stack_update_partitions_observations
    (first : TrainableProbabilisticModel * Z)
    (rest : list (TrainableProbabilisticModel * Z))
    (dataset : Dataset) (lead : list nat) (s : traced) :
  let stack := ModelStack.__init__ first rest in
  let sizes := ModelStack._event_sizes stack in
  let models := ModelStack._models stack in
  let received := routed sizes dataset in
  Forall (fun e => (0 <= e)%Z) sizes ->
  well_formed (observations dataset) ->
  shape (observations dataset) = lead ++ [Z.to_nat (Zsum sizes)] ->
  (exists r w' n,
     ModelStack.update stack dataset s
     = (r, {| world := w';
              call_log := call_log s ++ take n (imap CallUpdate received) |})
     /\ dispatched update (zip models received) (world s) r w' n)
  /\ Forall2 (fun d e =>
                query_points d = query_points dataset
                /\ well_formed (observations d)
                /\ shape (observations d) = lead ++ [Z.to_nat e])
             received sizes
  /\ (forall (St : Type) (st : St),
        tf_concat (map observations received) (-1) st
        = (Ok (observations dataset), st)).
Proof.
  intros stack sizes models received Hs Hwf Hshape.
  assert (W : Z.of_nat <$> width (observations dataset) = Some (Zsum sizes)).
  { pose proof (Zsum_nonneg sizes Hs) as Hnn.
    rewrite (width_snoc _ _ _ Hshape). cbn [fmap option_fmap option_map].
    f_equal. lia. }
  assert (Hmodels : length models = length sizes) by apply init_lengths.
  split.
  { destruct (dispatched_total update (zip models received) (world s))
      as (r & w' & n & Hrun & _).
    exists r, w', n. split; [|exact Hrun].
    apply (dispatch_routes update CallUpdate models sizes dataset s r w' n
             Hmodels Hs W Hrun). }
  assert (Hne : Z.to_nat <$> sizes <> []) by done.
  clearbody sizes. set (ns := Z.to_nat <$> sizes) in *.
  assert (Hns : Z.of_nat <$> ns = sizes) by by apply of_nat_to_nat.
  destruct (tf_split_concat lead [] (observations dataset) ns (-1))
    as (pieces & Esplit & Hpieces & Econcat).
  { exact Hne. } { done. } { exact Hwf. }
  { rewrite Hshape. unfold ns. by rewrite <- to_nat_Zsum. }
  specialize (Esplit unit tt). rewrite Hns in Esplit.
  rewrite (tf_split_columns _ _ tt Hs W) in Esplit.
  injection Esplit as Esplit.
  assert (Hreceived : received
                      = mkDataset (query_points dataset) <$> pieces).
  { unfold received, routed. by rewrite <- Esplit, fmap_imap. }
  rewrite Hreceived. split.
  - apply Forall2_fmap_l. rewrite <- Hns. apply Forall2_fmap_r.
    eapply Forall2_impl; [exact Hpieces|].
    intros p e [Hp Hsh]. cbn. rewrite Nat2Z.id. done.
  - intros St st.
    replace (map observations (mkDataset (query_points dataset) <$> pieces))
      with pieces; [apply Econcat|].
    rewrite <- list_fmap_compose. rewrite <- (list_fmap_id pieces) at 1.
    by apply list_fmap_ext.
Qed.

End partition.

(** ** The dimension checks of the wrappers *)

Section wrapper_checks.
Context `{Library}.
Context (predict_f_full_cov :
           VGP.VGP -> TensorType -> result (TensorType * TensorType)).
Context (layer_predict_full_cov :
           GPFluxModel.Layer -> TensorType -> result (TensorType * TensorType)).

(** An [update] that raises whatever the check of the new dataset
    against the one held raises, leaving the wrapper as it was, checks
    the dimensions. *)
Lemma checked_first {St} (update : Dataset -> M St unit)
    (held : St -> Dataset) :
  (forall dataset self e,
     _assert_data_is_compatible dataset (held self) self = (Raise e, self) ->
     update dataset self = (Raise e, self)) ->
  checks_dimensions update held.
Proof.
  intros Hguard self dataset Hq Ho Hx Hy. cbv zeta.
  destruct (last_is_Some _ Hq) as [nq Enq], (last_is_Some _ Ho) as [no Eno],
    (last_is_Some _ Hx) as [eq Eeq], (last_is_Some _ Hy) as [eo Eeo].
  pose proof (assert_compatible_eq dataset (held self) self nq eq no eo
                Enq Eeq Eno Eeo) as E.
  rewrite Enq, Eno, Eeq, Eeo.
  destruct (Nat.eqb_spec nq eq) as [->|Nq]; cbn [negb] in E.
  - destruct (Nat.eqb_spec no eo) as [->|No]; cbn [negb] in E.
    + split; [done|]. intros Hn. exfalso. by apply Hn.
    + pose proof (Hguard _ _ _ E) as Eu. split.
      * rewrite Eu. discriminate.
      * intros _.
        eexists _, (observations dataset), (observations (held self)).
        split; [exact Eu|]. split; [right; reflexivity|].
        split; [congruence|]. apply incompatible_message_mentions.
  - pose proof (Hguard _ _ _ E) as Eu. split.
    + rewrite Eu. discriminate.
    + intros _.
      eexists _, (query_points dataset), (query_points (held self)).
      split; [exact Eu|]. split; [left; reflexivity|].
      split; [congruence|]. apply incompatible_message_mentions.
Qed.

Lemma assert_matching {St} (new existing : Dataset) (s : St) :
  has_trailing_axis (query_points new) ->
  has_trailing_axis (observations new) ->
  last (shape (query_points new)) = last (shape (query_points existing)) ->
  last (shape (observations new)) = last (shape (observations existing)) ->
  _assert_data_is_compatible new existing s = (Ok tt, s).
Proof.
  intros Hq Ho Eq Eo.
  destruct (last_is_Some _ Hq) as [nq Enq], (last_is_Some _ Ho) as [no Eno].
  rewrite (assert_compatible_eq new existing s nq nq no no)
    by congruence.
  by rewrite !Nat.eqb_refl.
Qed.

Lemma gpr_update_guarded (dataset : Dataset) (self : GPR.t) e :
  _assert_data_is_compatible dataset (gpr_held self) self = (Raise e, self) ->
  GPR.update dataset self = (Raise e, self).
Proof. intros E. rewrite gpr_update_eq. fold (gpr_held self). by rewrite E. Qed.

Lemma sparse_variational_update_guarded (dataset : Dataset) (self : SV.t) e :
  _assert_data_is_compatible dataset (SV._data self) self = (Raise e, self) ->
  SV.update dataset self = (Raise e, self).
Proof. intros E. by rewrite sparse_variational_update_eq, E. Qed.

Lemma vgp_update_guarded (jitter : Scalar) (dataset : Dataset) (self : VGP.t) e :
  _assert_data_is_compatible dataset (vgp_held self) self = (Raise e, self) ->
  VGP.update predict_f_full_cov dataset jitter self = (Raise e, self).
Proof.
  intros E. unfold VGP.update, bind at 1. cbn [VGP.get_model].
  unfold bind at 1. fold (vgp_held self). by rewrite E.
Qed.

Lemma gpflux_update_guarded (jitter : Scalar) (dataset : Dataset)
    (self : GPFluxModel.t) e :
  _assert_data_is_compatible dataset (GPFluxModel._data self) self
  = (Raise e, self) ->
  GPFluxModel.update layer_predict_full_cov dataset jitter self
  = (Raise e, self).
Proof.
  intros E. unfold GPFluxModel.update, bind at 1. cbn [GPFluxModel.get].
  unfold bind at 1. by rewrite E.
Qed.

(** C9. Each of the four wrappers of GPflow and GPflux models,
    [GaussianProcessRegression], [SparseVariational],
    [VariationalGaussianProcess] and [GPFluxModel], holding data whose
    tensors have a trailing axis: [update(dataset)] returns only if the
    trailing dimensions of the query points and of the observations both
    equal those of the data held; otherwise it raises the [ValueError] of
    [_assert_data_is_compatible], whose message contains the shapes of
    the new and of the existing tensor that disagree, and the wrapper,
    with the data it holds, is unchanged.  For the first two, whose
    [update] runs no other code that can fail, [update] returns whenever
    the dimensions match, and the wrapper then holds the new dataset. *)
Theorem trainable_wrappers_check_dimensions (jitter : Scalar) :
  (checks_dimensions GPR.update gpr_held
   /\ accepts_matching GPR.update gpr_held)
  /\ (checks_dimensions SV.update SV._data
      /\ accepts_matching SV.update SV._data)
  /\ checks_dimensions
       (fun dataset => VGP.update predict_f_full_cov dataset jitter) vgp_held
  /\ checks_dimensions
       (fun dataset => GPFluxModel.update layer_predict_full_cov dataset jitter)
       GPFluxModel._data.
Proof.
  split; [split|split; [split|split]].
  - apply checked_first. intros dataset self e. apply gpr_update_guarded.
  - intros self dataset Hq Ho _ _ Eq Eo.
    eexists. rewrite gpr_update_eq. fold (gpr_held self).
    rewrite (assert_matching dataset (gpr_held self) self Hq Ho Eq Eo).
    split; [reflexivity|]. unfold gpr_held. cbn. by destruct dataset.
  - apply checked_first. intros dataset self e.
    apply sparse_variational_update_guarded.
  - intros self dataset Hq Ho _ _ Eq Eo.
    rewrite sparse_variational_update_eq.
    rewrite (assert_matching dataset (SV._data self) self Hq Ho Eq Eo).
    unfold has_trailing_axis in Hq.
    destruct (shape (query_points dataset)) as [|n ds]; [done|].
    eexists. split; reflexivity.
  - apply checked_first. intros dataset self e. apply vgp_update_guarded.
  - apply checked_first. intros dataset self e. apply gpflux_update_guarded.
Qed.

End wrapper_checks.
(** * The statements at concrete inputs *)

Section concrete.
#[local] Existing Instance demo.

(** A builder adapted to the tag OBJECTIVE, prepared with a second
    model under the tag CONSTRAINT. *)
Lemma using_prepare_selects_tag_witness :
  "OBJECTIVE" <> "CONSTRAINT"
  /\ AFB.prepare_acquisition_function Demo.multi_builder
       (<["CONSTRAINT" := 8]> (<["OBJECTIVE" := 7]> ∅))
       (Some (<["OBJECTIVE" := Demo.data]> ∅)) 0
     = SMAB.prepare_acquisition_function Demo.builder 7 (Some Demo.data) 0.
Proof.
  assert (N : "OBJECTIVE" <> "CONSTRAINT") by (intros E; inversion E).
  split; [exact N|].
  exact (proj1 (using_prepare_selects_tag Demo.builder "OBJECTIVE"
                  "CONSTRAINT" 7 8 Demo.data N) 0).
Defined.

(** The adapters asked for a tag the models lack, for a tag the
    datasets lack, and without datasets. *)
Lemma using_missing_tag_witness :
  (Demo.models !! "MISSING" = None
   /\ AFB.prepare_acquisition_function
        (SMAB.using_ Demo.builder "MISSING") Demo.models None 0
      = (Raise (KeyError "MISSING"), 0))
  /\ (Demo.models !! "CONSTRAINT" = Some 8
      /\ Demo.datasets !! "CONSTRAINT" = None
      /\ GAFB.update_acquisition_function
           (SMGAB.using_ Demo.greedy_builder "CONSTRAINT") 0 Demo.models
           (Some Demo.datasets) None true 0
         = (Raise (KeyError "CONSTRAINT"), 0))
  /\ AFB.prepare_acquisition_function
       (SMAB.using_ Demo.builder "CONSTRAINT") Demo.models None 0
     = SMAB.prepare_acquisition_function Demo.builder 8 None 0.
Proof.
  assert (E1 : Demo.models !! "MISSING" = None) by reflexivity.
  assert (E2 : Demo.models !! "CONSTRAINT" = Some 8) by reflexivity.
  assert (E3 : Demo.datasets !! "CONSTRAINT" = None) by reflexivity.
  split; [|split].
  - split; [exact E1|].
    exact (proj1 (proj1 (using_missing_tag Demo.builder Demo.greedy_builder
                           "MISSING" Demo.models) E1 0 None None true 0)).
  - split; [exact E2|]. split; [exact E3|].
    exact (proj2 (proj2 (proj2
             (proj1 (proj2 (using_missing_tag Demo.builder
                              Demo.greedy_builder "CONSTRAINT" Demo.models))
                8 E2 Demo.datasets E3 0 None true 0)))).
  - exact (proj1 (proj2 (proj2 (using_missing_tag Demo.builder
                                  Demo.greedy_builder "CONSTRAINT"
                                  Demo.models))
                    8 E2 0 None true 0)).
Defined.

(** The builders of [Demo], none of which overrides the update. *)
Lemma update_defaults_to_prepare_witness :
  SMAB.update_override Demo.builder = None
  /\ SMAB.update_acquisition_function Demo.builder 99 7 (Some Demo.data)
     = SMAB.prepare_acquisition_function Demo.builder 7 (Some Demo.data).
Proof.
  split; [reflexivity|].
  exact (proj2 update_defaults_to_prepare Demo.builder 99 7 (Some Demo.data)
           eq_refl).
Defined.

Lemma greedy_update_forwarding_witness :
  SMGAB.update_override Demo.greedy_builder = None
  /\ Demo.models !! "OBJECTIVE" = Some 7
  /\ selects "OBJECTIVE" (Some Demo.datasets) (Some Demo.data)
  /\ SMGAB.update_acquisition_function Demo.greedy_builder 99 7
       (Some Demo.data) (Some Demo.points) false
     = SMGAB.prepare_acquisition_function Demo.greedy_builder 7
         (Some Demo.data) (Some Demo.points)
  /\ GAFB.update_acquisition_function Demo.multi_greedy_builder 99
       Demo.models (Some Demo.datasets) (Some Demo.points) false 0
     = SMGAB.update_acquisition_function Demo.greedy_builder 99 7
         (Some Demo.data) (Some Demo.points) false 0.
Proof.
  assert (E : Demo.models !! "OBJECTIVE" = Some 7) by reflexivity.
  assert (D : selects "OBJECTIVE" (Some Demo.datasets) (Some Demo.data))
    by (constructor; reflexivity).
  split; [reflexivity|]. split; [exact E|]. split; [exact D|]. split.
  - exact (proj1 (proj2 greedy_update_forwarding) Demo.greedy_builder 99 7
             (Some Demo.data) (Some Demo.points) false eq_refl).
  - exact (proj1 (proj2 (proj2 greedy_update_forwarding) Demo.greedy_builder
                    "OBJECTIVE" 99 Demo.models (Some Demo.datasets)
                    (Some Demo.points) false 7 (Some Demo.data) 0 E D)).
Defined.

Lemma gpr_update_bare_raise_unreachable_witness :
  _assert_data_is_compatible Demo.data
    (mkDataset (GPR.model_data Demo.gpr).1 (GPR.model_data Demo.gpr).2)
    Demo.gpr = (Ok tt, Demo.gpr)
  /\ GPR.update Demo.data Demo.gpr
     = (Ok tt, {| GPR.model_data :=
                    (query_points Demo.data, observations Demo.data) |})
  /\ (GPR.update Demo.narrow_data Demo.gpr).1 <> Raise (ValueError None).
Proof.
  assert (E : _assert_data_is_compatible Demo.data
                (mkDataset (GPR.model_data Demo.gpr).1
                           (GPR.model_data Demo.gpr).2)
                Demo.gpr = (Ok tt, Demo.gpr)) by reflexivity.
  split; [exact E|]. split.
  - exact (proj1 (proj2 (gpr_update_bare_raise_unreachable Demo.gpr
                           Demo.data)) E).
  - exact (proj1 (gpr_update_bare_raise_unreachable Demo.gpr
                    Demo.narrow_data)).
Defined.

Lemma compatible_is_equivalence_witness :
  (has_trailing_axis (query_points Demo.data)
   /\ has_trailing_axis (observations Demo.data)
   /\ compatible Demo.data Demo.data)
  /\ (compatible Demo.data DemoMore.more_data
      /\ compatible DemoMore.more_data Demo.data)
  /\ ~ compatible Demo.narrow_data Demo.data.
Proof.
  assert (Hq : has_trailing_axis (query_points Demo.data))
    by (intros E; discriminate E).
  assert (Ho : has_trailing_axis (observations Demo.data))
    by (intros E; discriminate E).
  assert (C : compatible Demo.data DemoMore.more_data) by reflexivity.
  split; [|split].
  - split; [exact Hq|]. split; [exact Ho|].
    exact (proj1 compatible_is_equivalence Demo.data Hq Ho).
  - split; [exact C|].
    exact (proj1 (proj2 compatible_is_equivalence) _ _ C).
  - intros E. discriminate E.
Defined.


Lemma gpr_update_replaces_witness :
  (GPR.update DemoMore.more_data Demo.gpr).1 = Ok tt
  /\ GPR.update Demo.data (GPR.update DemoMore.more_data Demo.gpr).2
     = GPR.update Demo.data Demo.gpr.
Proof.
  assert (E : (GPR.update DemoMore.more_data Demo.gpr).1 = Ok tt)
    by reflexivity.
  split; [exact E|].
  exact (proj2 (proj2 (gpr_update_replaces Demo.gpr DemoMore.more_data
                         Demo.data E)) eq_refl).
Defined.

Lemma using_update_is_using_prepare_witness :
  SMAB.update_override Demo.builder = None
  /\ SMGAB.update_override Demo.greedy_builder = None
  /\ AFB.update_acquisition_function Demo.multi_builder 99 Demo.models
       (Some Demo.datasets) 0
     = AFB.prepare_acquisition_function Demo.multi_builder Demo.models
         (Some Demo.datasets) 0
  /\ GAFB.update_acquisition_function Demo.multi_greedy_builder 99 Demo.models
       None (Some Demo.points) false 0
     = GAFB.prepare_acquisition_function Demo.multi_greedy_builder Demo.models
         None (Some Demo.points) 0.
Proof.
  split; [reflexivity|]. split; [reflexivity|]. split.
  - exact (proj1 using_update_is_using_prepare Demo.builder "OBJECTIVE" 99
             Demo.models (Some Demo.datasets) 0 eq_refl).
  - exact (proj2 using_update_is_using_prepare Demo.greedy_builder "OBJECTIVE"
             99 Demo.models None (Some Demo.points) false 0 eq_refl).
Defined.

Lemma using_reads_only_its_tag_witness :
  Demo.models !! "OBJECTIVE" = DemoMore.other_models !! "OBJECTIVE"
  /\ agree_at "OBJECTIVE" (Some Demo.datasets) (Some Demo.datasets)
  /\ AFB.prepare_acquisition_function Demo.multi_builder Demo.models
       (Some Demo.datasets) 0
     = AFB.prepare_acquisition_function Demo.multi_builder DemoMore.other_models
         (Some Demo.datasets) 0.
Proof.
  assert (E : Demo.models !! "OBJECTIVE" = DemoMore.other_models !! "OBJECTIVE")
    by reflexivity.
  assert (A : agree_at "OBJECTIVE" (Some Demo.datasets) (Some Demo.datasets))
    by reflexivity.
  split; [exact E|]. split; [exact A|].
  exact (proj1 (using_reads_only_its_tag Demo.builder Demo.greedy_builder
                  "OBJECTIVE" Demo.models DemoMore.other_models
                  (Some Demo.datasets) (Some Demo.datasets) E A 0 None true 0)).
Defined.

End concrete.

(** * The statements about stacks and wrappers at concrete inputs *)

Section concrete_stacks.
#[local] Existing Instance demo.
#[local] Existing Instance DemoMore.library.

(** The stack of the models of event sizes 1 and 2, already updated four
    times, updated and optimized with observations three columns wide:
    both constituents are called, each with its columns, and the world
    counts two more updates. *)
Lemma model_stack_routes_slices_witness :
  Forall (fun e => (0 <= e)%Z) (ModelStack._event_sizes Demo.stack)
  /\ Z.of_nat <$> width (observations Demo.data)
     = Some (Zsum (ModelStack._event_sizes Demo.stack))
  /\ ModelStack.update Demo.stack Demo.data Demo.trained
     = (Ok tt,
        {| world := 6;
           call_log :=
             [CallUpdate 0
                (mkDataset (query_points Demo.data)
                   (slice_columns 0 1 (observations Demo.data)));
              CallUpdate 1
                (mkDataset (query_points Demo.data)
                   (slice_columns 1 3 (observations Demo.data)))] |})
  /\ ModelStack.optimize Demo.stack Demo.data Demo.trained
     = (Ok tt,
        {| world := 6;
           call_log :=
             [CallOptimize 0
                (mkDataset (query_points Demo.data)
                   (slice_columns 0 1 (observations Demo.data)));
              CallOptimize 1
                (mkDataset (query_points Demo.data)
                   (slice_columns 1 3 (observations Demo.data)))] |}).
Proof.
  assert (Hs : Forall (fun e => (0 <= e)%Z) (ModelStack._event_sizes Demo.stack))
    by (cbv -[Z.le]; repeat (apply Forall_cons_2; [lia|]); apply Forall_nil_2).
  assert (W : Z.of_nat <$> width (observations Demo.data)
              = Some (Zsum (ModelStack._event_sizes Demo.stack)))
    by reflexivity.
  destruct (model_stack_routes_slices Demo.first_pair Demo.other_pairs
              Demo.data Demo.trained Hs W)
    as [(r & w' & n & E & Hrun & _) (r2 & w2 & n2 & E2 & Hrun2 & _)].
  assert (Hup : dispatched update
                  (zip (ModelStack._models Demo.stack)
                       (routed (ModelStack._event_sizes Demo.stack) Demo.data))
                  4 (Ok tt) 6 2).
  { eapply dispatched_return; [reflexivity|].
    eapply dispatched_return; [reflexivity|]. apply dispatched_nil. }
  assert (Hopt : dispatched optimize
                   (zip (ModelStack._models Demo.stack)
                        (routed (ModelStack._event_sizes Demo.stack) Demo.data))
                   4 (Ok tt) 6 2).
  { eapply dispatched_return; [reflexivity|].
    eapply dispatched_return; [reflexivity|]. apply dispatched_nil. }
  destruct (dispatched_unique _ _ _ _ _ _ _ _ _ Hrun Hup) as (-> & -> & ->).
  destruct (dispatched_unique _ _ _ _ _ _ _ _ _ Hrun2 Hopt) as (-> & -> & ->).
  split; [exact Hs|]. split; [exact W|]. split; [exact E | exact E2].
Defined.

(** Three constituents of event sizes 1, 2 and 1, the second a model of
    points with two coordinates, and a dataset of points with one
    coordinate whose observations are four columns wide: the second
    constituent raises, and the third, which would have taken its slice,
    is not called.  And a stack declared with the sizes -1 and 2, which
    add up to 1: [tf.split] cannot cut one column into pieces of which
    one has two, and no constituent is called. *)
Lemma update_does_not_call_every_constituent :
  (Forall (fun e => (0 <= e)%Z) (ModelStack._event_sizes Demo.failing_stack)
   /\ Z.of_nat <$> width (observations DemoMore.four_data)
      = Some (Zsum (ModelStack._event_sizes Demo.failing_stack))
   /\ ModelStack.update Demo.failing_stack DemoMore.four_data Demo.start
      = (Raise (ValueError (Some "dimension mismatch")),
         {| world := 1;
            call_log :=
              [CallUpdate 0
                 (mkDataset (query_points DemoMore.four_data)
                    (slice_columns 0 1 (observations DemoMore.four_data)));
               CallUpdate 1
                 (mkDataset (query_points DemoMore.four_data)
                    (slice_columns 1 3 (observations DemoMore.four_data)))] |})
   /\ update (Demo.counting_model 9 1 1)
        (mkDataset (query_points DemoMore.four_data)
           (slice_columns 3 4 (observations DemoMore.four_data))) 1
      = (Ok tt, 2)
   /\ ModelStack.optimize Demo.failing_stack DemoMore.four_data Demo.start
      = (Raise (ValueError (Some "dimension mismatch")),
         {| world := 1;
            call_log :=
              [CallOptimize 0
                 (mkDataset (query_points DemoMore.four_data)
                    (slice_columns 0 1 (observations DemoMore.four_data)));
               CallOptimize 1
                 (mkDataset (query_points DemoMore.four_data)
                    (slice_columns 1 3 (observations DemoMore.four_data)))] |}))
  /\ (Z.of_nat <$> width (observations DemoMore.one_data)
      = Some (Zsum (ModelStack._event_sizes Demo.inferring_stack))
      /\ ModelStack.update Demo.inferring_stack DemoMore.one_data Demo.start
         = (Raise InvalidArgumentError, Demo.start)
      /\ ModelStack.optimize Demo.inferring_stack DemoMore.one_data Demo.start
         = (Raise InvalidArgumentError, Demo.start)).
Proof.
  split.
  - split; [cbv -[Z.le]; repeat (apply Forall_cons_2; [lia|]);
             apply Forall_nil_2|].
    repeat split; reflexivity.
  - repeat split; reflexivity.
Qed.

(** The stack of the models of event sizes 1 and 2, with observations
    only two columns wide. *)
Lemma model_stack_rejects_width_mismatch_witness :
  Forall (fun e => (0 <= e)%Z) (ModelStack._event_sizes Demo.stack)
  /\ Z.of_nat <$> width (observations Demo.narrow_data)
     <> Some (Zsum (ModelStack._event_sizes Demo.stack))
  /\ ModelStack.update Demo.stack Demo.narrow_data Demo.trained
     = (Raise InvalidArgumentError, Demo.trained)
  /\ ModelStack.optimize Demo.stack Demo.narrow_data Demo.trained
     = (Raise InvalidArgumentError, Demo.trained).
Proof.
  assert (Hs : Forall (fun e => (0 <= e)%Z) (ModelStack._event_sizes Demo.stack))
    by (cbv -[Z.le]; repeat (apply Forall_cons_2; [lia|]); apply Forall_nil_2).
  assert (W : Z.of_nat <$> width (observations Demo.narrow_data)
              <> Some (Zsum (ModelStack._event_sizes Demo.stack)))
    by (intros E; discriminate E).
  split; [exact Hs|]. split; [exact W|].
  exact (model_stack_rejects_width_mismatch Demo.first_pair Demo.other_pairs
           Demo.narrow_data Demo.trained Hs W).
Defined.

(** The same two models, declared with the sizes -1 and 2, which add up
    to 1, and observations three columns wide: [tf.split] takes the -1
    for the column the 2 leaves, and both constituents are updated. *)
Lemma inferred_size_accepts_width_mismatch :
  Z.of_nat <$> width (observations Demo.data)
  <> Some (Zsum (ModelStack._event_sizes Demo.inferring_stack))
  /\ ModelStack.update Demo.inferring_stack Demo.data Demo.start
     = (Ok tt,
        {| world := 2;
           call_log :=
             [CallUpdate 0
                (mkDataset (query_points Demo.data)
                   (slice_columns 0 1 (observations Demo.data)));
              CallUpdate 1
                (mkDataset (query_points Demo.data)
                   (slice_columns 1 3 (observations Demo.data)))] |})
  /\ ModelStack.optimize Demo.inferring_stack Demo.data Demo.start
     = (Ok tt,
        {| world := 2;
           call_log :=
             [CallOptimize 0
                (mkDataset (query_points Demo.data)
                   (slice_columns 0 1 (observations Demo.data)));
              CallOptimize 1
                (mkDataset (query_points Demo.data)
                   (slice_columns 1 3 (observations Demo.data)))] |}).
Proof.
  split; [intros E; discriminate E|]. split; reflexivity.
Qed.

(** The predictions of the stack at two points, its models updated four
    times before: what they predict depends on that. *)
Lemma model_stack_predict_concatenates_witness :
  collected (fun m => predict m Demo.points) (ModelStack._models Demo.stack)
            (world Demo.trained) (Ok Demo.predictions) 4 2
  /\ exists mean var,
       ModelStack.predict Demo.stack Demo.points Demo.trained
       = (Ok (mean, var),
          {| world := 4;
             call_log := [CallPredict 0 Demo.points;
                          CallPredict 1 Demo.points] |})
       /\ width mean = Some 3
       /\ width var = Some 3
       /\ tf_split mean (ModelStack._event_sizes Demo.stack) (-1) tt
          = (Ok (map fst Demo.predictions), tt)
       /\ tf_split var (ModelStack._event_sizes Demo.stack) (-1) tt
          = (Ok (map snd Demo.predictions), tt).
Proof.
  assert (A : collected (fun m => predict m Demo.points)
                (ModelStack._models Demo.stack) (world Demo.trained)
                (Ok Demo.predictions) 4 2).
  { eapply collected_return; [reflexivity|].
    eapply collected_return; [reflexivity|]. apply collected_nil. }
  split; [exact A|].
  destruct (model_stack_predict_concatenates Demo.first_pair Demo.other_pairs
              Demo.points [2] [1; 2] Demo.predictions Demo.trained 4 2 A)
    as (mean & var & E & Wm & Wv & _ & _ & Hsplit).
  { repeat constructor. }
  exists mean, var. split; [exact E|]. split; [exact Wm|].
  split; [exact Wv|]. exact (Hsplit eq_refl unit tt).
Defined.

(** The joint predictions of the stack at a batch of two points. *)
Lemma model_stack_predict_joint_concatenates_witness :
  collected (fun m => predict_joint m Demo.points)
            (ModelStack._models Demo.stack) (world Demo.trained)
            (Ok Demo.joint_predictions) 4 2
  /\ exists mean cov,
       ModelStack.predict_joint Demo.stack Demo.points Demo.trained
       = (Ok (mean, cov),
          {| world := 4;
             call_log := [CallPredictJoint 0 Demo.points;
                          CallPredictJoint 1 Demo.points] |})
       /\ shape mean = [2; 3]
       /\ shape cov = [3; 2; 2]
       /\ tf_concat (map snd Demo.joint_predictions) (-3) tt = (Ok cov, tt)
       /\ tf_split cov (ModelStack._event_sizes Demo.stack) (-3) tt
          = (Ok (map snd Demo.joint_predictions), tt).
Proof.
  assert (A : collected (fun m => predict_joint m Demo.points)
                (ModelStack._models Demo.stack) (world Demo.trained)
                (Ok Demo.joint_predictions) 4 2).
  { eapply collected_return; [reflexivity|].
    eapply collected_return; [reflexivity|]. apply collected_nil. }
  split; [exact A|].
  destruct (model_stack_predict_joint_concatenates Demo.first_pair
              Demo.other_pairs Demo.points [] 2 [1; 2] Demo.joint_predictions
              Demo.trained 4 2 A)
    as (mean & cov & E & Sm & Sc & Hconcat & Hsplit).
  { repeat constructor. }
  exists mean, cov. split; [exact E|]. split; [exact Sm|].
  split; [exact Sc|].
  split; [exact (proj2 (Hconcat unit tt)) | exact (proj2 (Hsplit unit tt))].
Defined.

(** Two models of event size 1 at three batches of two points: each
    returns a covariance of shape [[3, 1, 2, 2]], and
    [ModelStack.predict_joint] one of shape [[3, 2, 2, 2]], with no new
    axis.  Stacked along a new leading axis, the two covariances have
    shape [[2, 3, 1, 2, 2]], and their blocks, one of shape [[3, 2, 2]]
    for each output, have shape [[2, 3, 2, 2]], with the entries in
    another order. *)
Lemma predict_joint_does_not_stack :
  (exists mean cov s',
     ModelStack.predict_joint Demo.batched_stack Demo.batched_points Demo.start
     = (Ok (mean, cov), s')
     /\ shape cov = [3; 2; 2; 2]
     /\ cov <> Demo.tensor [2; 3; 2; 2]
                 (replicate 12 2%Z ++ replicate 12 6%Z))
  /\ ~ predict_joint_stacks Demo.batched_stack Demo.batched_points Demo.start.
Proof.
  split.
  - eexists _, _, _. split; [reflexivity|]. split; [reflexivity|].
    intros E. discriminate E.
  - intros Hstacks.
    destruct (Hstacks
                [(Demo.tensor [3; 2; 1] (replicate 6 1%Z),
                  Demo.tensor [3; 1; 2; 2] (replicate 12 2%Z));
                 (Demo.tensor [3; 2; 1] (replicate 6 5%Z),
                  Demo.tensor [3; 1; 2; 2] (replicate 12 6%Z))] 0 2)
      as (mean & cov & s' & Erun & _ & Estack).
    { eapply collected_return; [reflexivity|].
      eapply collected_return; [reflexivity|]. apply collected_nil. }
    vm_compute in Erun. injection Erun as _ Ecov _.
    destruct Estack as [Estack | Estack]; vm_compute in Estack;
      injection Estack as Ecov'; rewrite <- Ecov in Ecov'; discriminate Ecov'.
Qed.

(** The four wrappers, each holding two points with three outputs, and
    a dataset of two points with two outputs: each raises, naming the
    shapes [(2, 2)] and [(2, 3)], and is unchanged; the first two accept
    five points with three outputs. *)
Lemma trainable_wrappers_check_dimensions_witness :
  (exists msg,
     GPR.update Demo.narrow_data
       {| GPR.model_data := (query_points Demo.data, observations Demo.data) |}
     = (Raise (ValueError (Some msg)),
        {| GPR.model_data := (query_points Demo.data, observations Demo.data) |})
     /\ mentions "(2, 2)" msg /\ mentions "(2, 3)" msg)
  /\ (exists msg,
        SV.update Demo.narrow_data DemoMore.sparse
        = (Raise (ValueError (Some msg)), DemoMore.sparse)
        /\ mentions "(2, 2)" msg /\ mentions "(2, 3)" msg)
  /\ (exists msg,
        VGP.update DemoMore.predict_f Demo.narrow_data DemoMore.jitter
          DemoMore.vgp
        = (Raise (ValueError (Some msg)), DemoMore.vgp)
        /\ mentions "(2, 2)" msg /\ mentions "(2, 3)" msg)
  /\ (exists msg,
        GPFluxModel.update DemoMore.predict_f Demo.narrow_data
          DemoMore.jitter DemoMore.gpflux
        = (Raise (ValueError (Some msg)), DemoMore.gpflux)
        /\ mentions "(2, 2)" msg /\ mentions "(2, 3)" msg)
  /\ (exists self',
        SV.update DemoMore.more_data DemoMore.sparse = (Ok tt, self')
        /\ SV._data self' = DemoMore.more_data).
Proof.
  destruct (trainable_wrappers_check_dimensions
              DemoMore.predict_f DemoMore.predict_f DemoMore.jitter)
    as ((Hgpr & _) & (Hsv & Hsv') & Hvgp & Hflux).
  assert (T : forall dims xs, dims <> [] ->
              has_trailing_axis (Demo.tensor dims xs))
    by (intros dims xs Hne; exact Hne).
  assert (Hq : has_trailing_axis (query_points Demo.data))
    by (apply T; discriminate).
  assert (Ho : has_trailing_axis (observations Demo.data))
    by (apply T; discriminate).
  assert (Hn : has_trailing_axis (observations Demo.narrow_data))
    by (apply T; discriminate).
  assert (Hmq : has_trailing_axis (query_points DemoMore.more_data))
    by (apply T; discriminate).
  assert (Hmo : has_trailing_axis (observations DemoMore.more_data))
    by (apply T; discriminate).
  assert (N : ~ (last (shape (query_points Demo.narrow_data))
                 = last (shape (query_points Demo.data))
                 /\ last (shape (observations Demo.narrow_data))
                    = last (shape (observations Demo.data))))
    by (intros [_ E]; discriminate E).
  assert (pick : forall (new old : TensorType) msg,
            (new, old) = (query_points Demo.narrow_data, query_points Demo.data)
            \/ (new, old)
               = (observations Demo.narrow_data, observations Demo.data) ->
            last (shape new) <> last (shape old) ->
            mentions (TensorShape_str (shape new)) msg ->
            mentions (TensorShape_str (shape old)) msg ->
            mentions "(2, 2)" msg /\ mentions "(2, 3)" msg).
  { intros new old msg [P | P] Hne Mnew Mold; injection P as -> ->.
    - exfalso. apply Hne. reflexivity.
    - split; [exact Mnew | exact Mold]. }
  split; [|split; [|split; [|split]]].
  - destruct (proj2 (Hgpr {| GPR.model_data :=
                               (query_points Demo.data, observations Demo.data) |}
                          Demo.narrow_data Hq Hn Hq Ho) N)
      as (msg & new & old & E & Hpair & Hne & Mnew & Mold).
    exists msg. split; [exact E|]. exact (pick new old msg Hpair Hne Mnew Mold).
  - destruct (proj2 (Hsv DemoMore.sparse Demo.narrow_data Hq Hn Hq Ho) N)
      as (msg & new & old & E & Hpair & Hne & Mnew & Mold).
    exists msg. split; [exact E|]. exact (pick new old msg Hpair Hne Mnew Mold).
  - destruct (proj2 (Hvgp DemoMore.vgp Demo.narrow_data Hq Hn Hq Ho) N)
      as (msg & new & old & E & Hpair & Hne & Mnew & Mold).
    exists msg. split; [exact E|]. exact (pick new old msg Hpair Hne Mnew Mold).
  - destruct (proj2 (Hflux DemoMore.gpflux Demo.narrow_data Hq Hn Hq Ho) N)
      as (msg & new & old & E & Hpair & Hne & Mnew & Mold).
    exists msg. split; [exact E|]. exact (pick new old msg Hpair Hne Mnew Mold).
  - exact (Hsv' DemoMore.sparse DemoMore.more_data Hmq Hmo Hq Ho
             eq_refl eq_refl).
Defined.

(** The samples of the stack, three at each of two points, its models
    updated four times before. *)
Lemma model_stack_sample_concatenates_witness :
  collected (fun m => sample m Demo.points 3) (ModelStack._models Demo.stack)
            (world Demo.trained) (Ok Demo.samples) 4 2
  /\ exists samples,
       ModelStack.sample Demo.stack Demo.points 3 Demo.trained
       = (Ok samples,
          {| world := 4;
             call_log := [CallSample 0 Demo.points 3;
                          CallSample 1 Demo.points 3] |})
       /\ shape samples = [2; 3; 3]
       /\ tf_split samples (ModelStack._event_sizes Demo.stack) (-1) tt
          = (Ok Demo.samples, tt).
Proof.
  assert (A : collected (fun m => sample m Demo.points 3)
                (ModelStack._models Demo.stack) (world Demo.trained)
                (Ok Demo.samples) 4 2).
  { eapply collected_return; [reflexivity|].
    eapply collected_return; [reflexivity|]. apply collected_nil. }
  split; [exact A|].
  destruct (model_stack_sample_concatenates Demo.first_pair Demo.other_pairs
              Demo.points 3 [2] [1; 2] Demo.samples Demo.trained 4 2 A)
    as (samples & E & Hshape & Hsplit).
  { repeat constructor. }
  exists samples. split; [exact E|]. split; [exact Hshape|].
  exact (Hsplit unit tt).
Defined.

(** A stack of one model with two outputs, declared with seven. *)
Lemma single_model_stack_is_transparent_witness :
  ModelStack.predict Demo.single_stack Demo.points Demo.trained
  = (Ok (Demo.tensor [2; 2] [9; 9; 9; 9]%Z,
         Demo.tensor [2; 2] [10; 10; 10; 10]%Z),
     {| world := 4; call_log := [CallPredict 0 Demo.points] |}).
Proof.
  exact (proj1 (single_model_stack_is_transparent (Demo.counting_model 5 1 2) 7
                  Demo.points 3 Demo.trained)).
Defined.

(** A stack whose second model raises: the third is not asked. *)
Lemma model_stack_prediction_stops_at_raise_witness :
  collected (fun m => predict m Demo.points)
            (ModelStack._models Demo.broken_stack) (world Demo.trained)
            (Raise (OtherError 3)) 4 2
  /\ ModelStack.predict Demo.broken_stack Demo.points Demo.trained
     = (Raise (OtherError 3),
        {| world := 4;
           call_log := [CallPredict 0 Demo.points;
                        CallPredict 1 Demo.points] |}).
Proof.
  assert (A : collected (fun m => predict m Demo.points)
                (ModelStack._models Demo.broken_stack) (world Demo.trained)
                (Raise (OtherError 3)) 4 2).
  { eapply collected_raise_later; [reflexivity|].
    apply collected_raise. reflexivity. }
  split; [exact A|].
  exact (proj1 (proj1 (model_stack_prediction_stops_at_raise Demo.first_pair
                         Demo.broken_pairs Demo.points 3 (OtherError 3)
                         Demo.trained 4 2) A)).
Defined.

(** The stack whose second model is one of points with two coordinates,
    updated with points that have one: the first model has been updated,
    the third has not been called. *)
Lemma model_stack_dispatch_stops_at_raise_witness :
  Forall (fun e => (0 <= e)%Z) (ModelStack._event_sizes Demo.failing_stack)
  /\ Z.of_nat <$> width (observations DemoMore.four_data)
     = Some (Zsum (ModelStack._event_sizes Demo.failing_stack))
  /\ dispatched update
       (zip (ModelStack._models Demo.failing_stack)
            (routed (ModelStack._event_sizes Demo.failing_stack)
                    DemoMore.four_data))
       (world Demo.trained) (Raise (ValueError (Some "dimension mismatch")))
       5 2
  /\ ModelStack.update Demo.failing_stack DemoMore.four_data Demo.trained
     = (Raise (ValueError (Some "dimension mismatch")),
        {| world := 5;
           call_log :=
             [CallUpdate 0
                (mkDataset (query_points DemoMore.four_data)
                   (slice_columns 0 1 (observations DemoMore.four_data)));
              CallUpdate 1
                (mkDataset (query_points DemoMore.four_data)
                   (slice_columns 1 3 (observations DemoMore.four_data)))] |}).
Proof.
  assert (Hs : Forall (fun e => (0 <= e)%Z)
                 (ModelStack._event_sizes Demo.failing_stack))
    by (cbv -[Z.le]; repeat (apply Forall_cons_2; [lia|]); apply Forall_nil_2).
  assert (W : Z.of_nat <$> width (observations DemoMore.four_data)
              = Some (Zsum (ModelStack._event_sizes Demo.failing_stack)))
    by reflexivity.
  assert (A : dispatched update
                (zip (ModelStack._models Demo.failing_stack)
                     (routed (ModelStack._event_sizes Demo.failing_stack)
                             DemoMore.four_data))
                (world Demo.trained)
                (Raise (ValueError (Some "dimension mismatch"))) 5 2).
  { eapply dispatched_return; [reflexivity|].
    apply dispatched_raise. reflexivity. }
  split; [exact Hs|]. split; [exact W|]. split; [exact A|].
  exact (proj1 (proj1 (model_stack_dispatch_stops_at_raise Demo.first_pair
                         Demo.failing_pairs DemoMore.four_data Demo.trained
                         (ValueError (Some "dimension mismatch")) 5 2 Hs W)
                  A)).
Defined.

(** The stack of the models of event sizes 1 and 2 and observations
    three columns wide: the two datasets handed on have observations one
    and two columns wide, which put side by side are the observations. *)
Lemma model_stack_update_partitions_observations_witness :
  Forall (fun e => (0 <= e)%Z) (ModelStack._event_sizes Demo.stack)
  /\ well_formed (observations Demo.data)
  /\ shape (observations Demo.data)
     = [2; Z.to_nat (Zsum (ModelStack._event_sizes Demo.stack))]
  /\ map (fun d => shape (observations d))
         (routed (ModelStack._event_sizes Demo.stack) Demo.data)
     = [[2; 1]; [2; 2]]
  /\ tf_concat
       (map observations
            (routed (ModelStack._event_sizes Demo.stack) Demo.data))
       (-1) tt
     = (Ok (observations Demo.data), tt).
Proof.
  assert (Hs : Forall (fun e => (0 <= e)%Z) (ModelStack._event_sizes Demo.stack))
    by (cbv -[Z.le]; repeat (apply Forall_cons_2; [lia|]); apply Forall_nil_2).
  assert (Hwf : well_formed (observations Demo.data)) by reflexivity.
  assert (Hshape : shape (observations Demo.data)
                   = [2; Z.to_nat (Zsum (ModelStack._event_sizes Demo.stack))])
    by reflexivity.
  destruct (model_stack_update_partitions_observations Demo.first_pair
              Demo.other_pairs Demo.data [2] Demo.trained Hs Hwf Hshape)
    as (_ & _ & Hconcat).
  split; [exact Hs|]. split; [exact Hwf|]. split; [exact Hshape|].
  split; [reflexivity|]. exact (Hconcat unit tt).
Defined.

End concrete_stacks.
